(** * Real-time synchronisation layer of the gRPC dashboard UI

    A shallow embedding of [src/services/socket.ts] (the [SocketService]
    event-channel client) and of the merge functions of the pages
    ([Connections], [Logs], [Dashboard]), with the properties of the
    design specification stated and proved over them. *)

From stdpp Require Import gmap strings list pretty.
From Stdlib Require Import ZArith Ascii.

Local Open Scope string_scope.

(** ** JavaScript helpers

    Strings are sequences of ASCII characters; [toLowerCase] acts on the
    letters [A]..[Z]. *)

Definition toLowerCase_ascii (c : ascii) : ascii :=
  let n := nat_of_ascii c in
  if Nat.leb 65 n && Nat.leb n 90 then ascii_of_nat (n + 32) else c.

Fixpoint toLowerCase (s : string) : string :=
  match s with
  | EmptyString => EmptyString
  | String c s' => String (toLowerCase_ascii c) (toLowerCase s')
  end.

(** [s.includes(sub)] *)
Fixpoint includes (s sub : string) : bool :=
  String.prefix sub s ||
  match s with
  | EmptyString => false
  | String _ s' => includes s' sub
  end.

(** Truthiness of a string: a non-empty one. *)
Definition truthy (s : string) : bool := negb (String.eqb s "").

(** [o && f(o)] for an optional string field [o], read as a condition. *)
Definition and_then (o : option string) (f : string -> bool) : bool :=
  match o with
  | Some s => truthy s && f s
  | None => false
  end.

(** [Array.prototype.slice(start, end)]: a negative bound counts from
    the end of the array. *)
Definition slice {A} (start end_ : Z) (l : list A) : list A :=
  let len := Z.of_nat (length l) in
  let k := if (start <? 0)%Z then Z.max (len + start) 0 else Z.min start len in
  let final := if (end_ <? 0)%Z then Z.max (len + end_) 0 else Z.min end_ len in
  take (Z.to_nat (final - k)) (drop (Z.to_nat k) l).

(** [Array.prototype.findIndex]: the first index whose element satisfies
    [p], or [-1]. *)
Fixpoint findIndex {A} (p : A -> bool) (l : list A) : Z :=
  match l with
  | [] => (-1)%Z
  | x :: l' =>
      if p x then 0%Z
      else let r := findIndex p l' in
           if (r <? 0)%Z then (-1)%Z else (r + 1)%Z
  end.

(** [Array.prototype.join] on strings. *)
Fixpoint join (sep : string) (l : list string) : string :=
  match l with
  | [] => ""
  | [x] => x
  | x :: l' => x ++ sep ++ join sep l'
  end.

(** [String.prototype.split] on a one-character separator. *)
Fixpoint split_on (sep : ascii) (s : string) : list string :=
  match s with
  | EmptyString => [""]
  | String c s' =>
      if Ascii.eqb c sep then "" :: split_on sep s'
      else match split_on sep s' with
           | [] => [String c ""]
           | x :: l => String c x :: l
           end
  end.

(** [Number.prototype.toString] on an integer: its decimal digits,
    after a minus sign when it is negative. *)
Definition Number_toString (n : Z) : string := pretty n.

(** ** Data model ([src/types/api.ts]) *)

Module GrpcConnection.
Inductive Status := connected | disconnected | error.

Definition status_string (st : Status) : string :=
  match st with
  | connected => "connected"
  | disconnected => "disconnected"
  | error => "error"
  end.

Record t := {
  id : string;
  clientId : string;
  service : string;
  url : string;
  status : Status;
  established : string;
  lastActivity : string;
  metadata : option (list (string * string)) }.
End GrpcConnection.

Module GrpcServiceInfo.
Inductive Status := active | inactive.

#[global] Instance Status_eq_dec : EqDecision Status.
Proof. solve_decision. Defined.

Record t := {
  id : string;
  name : string;
  methods : list string;
  package : string;
  status : Status;
  url : string;
  lastActivity : option string }.
End GrpcServiceInfo.

Module LogLevel.
Inductive t := error | warn | info | debug | verbose.

#[global] Instance eq_dec : EqDecision t.
Proof. solve_decision. Defined.
End LogLevel.

Module LogEntry.
Record t := {
  id : string;
  timestamp : string;
  level : LogLevel.t;
  message : string;
  context : string;
  service : option string;
  method : option string;
  traceId : option string }.
End LogEntry.

(** ** The Connections page *)

Module Connections.
Import GrpcConnection.

(** [handleConnectionUpdate]: the function given to [setConnections]. *)
Definition handleConnectionUpdate (connection : GrpcConnection.t)
    (prev : list GrpcConnection.t) : list GrpcConnection.t :=
  let index := findIndex (fun c => String.eqb (id c) (id connection)) prev in
  if (0 <=? index)%Z then <[Z.to_nat index := connection]> prev
  else (prev ++ [connection])%list.

(** [handleConnectionsUpdate]: a pushed set replaces the list. *)
Definition handleConnectionsUpdate (connectionsData prev : list GrpcConnection.t)
    : list GrpcConnection.t := connectionsData.

(** [filteredConnections] *)
Definition filteredConnections (searchText : string)
    (connections : list GrpcConnection.t) : list GrpcConnection.t :=
  if truthy searchText then
    let searchLower := toLowerCase searchText in
    List.filter (fun conn =>
        includes (toLowerCase (clientId conn)) searchLower
        || includes (toLowerCase (service conn)) searchLower
        || includes (toLowerCase (url conn)) searchLower
        || includes (toLowerCase (status_string (status conn))) searchLower)
      connections
  else connections.

#[global] Instance Status_eq_dec : EqDecision GrpcConnection.Status.
Proof. solve_decision. Defined.

(** The numbers of [tableSummary]. *)
Record Summary := {
  totalConnections : nat;
  connectedCount : nat;
  disconnectedCount : nat;
  errorCount : nat }.

Definition tableSummary (filteredConnections : list GrpcConnection.t) : Summary :=
  {| totalConnections := length filteredConnections;
     connectedCount :=
       length (List.filter (fun c => bool_decide (status c = connected))
                           filteredConnections);
     disconnectedCount :=
       length (List.filter (fun c => bool_decide (status c = disconnected))
                           filteredConnections);
     errorCount :=
       length (List.filter (fun c => bool_decide (status c = error))
                           filteredConnections) |}.
End Connections.

(** ** The Logs page *)

Module LogFilter.
Record t := {
  levels : list LogLevel.t;
  service : option string;
  searchText : string;
  limit : Z }.
End LogFilter.

Module Logs.

(** The initial value of [filters], also what [resetFilters] sets. *)
Definition defaultFilters : LogFilter.t :=
  {| LogFilter.levels := [LogLevel.error; LogLevel.warn; LogLevel.info;
                          LogLevel.debug; LogLevel.verbose];
     LogFilter.service := None;
     LogFilter.searchText := "";
     LogFilter.limit := 50 |}.

(** The condition of [handleLogUpdate]: the pushed entry matches the
    current filters. *)
Definition matches (filters : LogFilter.t) (log : LogEntry.t) : bool :=
  let needle := toLowerCase (LogFilter.searchText filters) in
  bool_decide (LogEntry.level log ∈ LogFilter.levels filters)
  && (negb (and_then (LogFilter.service filters) (fun _ => true))
      || and_then (LogEntry.service log) (fun s =>
           bool_decide (Some s = LogFilter.service filters)))
  && (negb (truthy (LogFilter.searchText filters))
      || includes (toLowerCase (LogEntry.message log)) needle
      || includes (toLowerCase (LogEntry.context log)) needle
      || and_then (LogEntry.service log) (fun s => includes (toLowerCase s) needle)
      || and_then (LogEntry.method log) (fun s => includes (toLowerCase s) needle)).

(** [handleLogUpdate]: the update of [logs] on a pushed entry. *)
Definition handleLogUpdate (filters : LogFilter.t) (log : LogEntry.t)
    (prev : list LogEntry.t) : list LogEntry.t :=
  if matches filters log
  then log :: slice 0 (LogFilter.limit filters - 1) prev
  else prev.

(** [filteredLogs] *)
Definition filteredLogs (filters : LogFilter.t) (logs : list LogEntry.t)
    : list LogEntry.t :=
  if truthy (LogFilter.searchText filters) then
    let needle := toLowerCase (LogFilter.searchText filters) in
    List.filter (fun log =>
        includes (toLowerCase (LogEntry.message log)) needle
        || includes (toLowerCase (LogEntry.context log)) needle
        || and_then (LogEntry.service log) (fun s => includes (toLowerCase s) needle)
        || and_then (LogEntry.method log) (fun s => includes (toLowerCase s) needle)
        || and_then (LogEntry.traceId log) (fun s => includes (toLowerCase s) needle))
      logs
  else logs.

(** The two pieces of component state the claims are about. *)
Record State := { logs : list LogEntry.t; filters : LogFilter.t }.

Definition initial : State := {| logs := []; filters := defaultFilters |}.

(** The two calls of [setLogs]: with the updater of [handleLogUpdate]
    on a pushed [log] event, and with the answer to [fetchLogs]
    ([setLogs(data)]). A change of the filters comes with an effect, and
    is an event of the page ([LogsPage] below). *)
Inductive Action :=
| push (log : LogEntry.t)
| setLogs (data : list LogEntry.t).

Definition act (a : Action) (st : State) : State :=
  match a with
  | push log => {| logs := handleLogUpdate (filters st) log (logs st);
                   filters := filters st |}
  | setLogs data => {| logs := data; filters := filters st |}
  end.

Definition run (acts : list Action) (st : State) : State :=
  foldl (fun st a => act a st) st acts.

(** What the table shows. *)
Definition shown (st : State) : list LogEntry.t :=
  filteredLogs (filters st) (logs st).

(** [Object.keys(LOG_LEVELS)], most severe first, and the keys as
    strings. *)
Definition LOG_LEVELS : list LogLevel.t :=
  [LogLevel.error; LogLevel.warn; LogLevel.info; LogLevel.debug; LogLevel.verbose].

Definition level_name (l : LogLevel.t) : string :=
  match l with
  | LogLevel.error => "error"
  | LogLevel.warn => "warn"
  | LogLevel.info => "info"
  | LogLevel.debug => "debug"
  | LogLevel.verbose => "verbose"
  end.

(** The place of a level in the order of severity. *)
Definition rank (l : LogLevel.t) : nat :=
  match l with
  | LogLevel.error => 0
  | LogLevel.warn => 1
  | LogLevel.info => 2
  | LogLevel.debug => 3
  | LogLevel.verbose => 4
  end.

(** The log level of the saved settings, applied to the filters when
    the page loads: the levels down to that one. *)
Definition applySavedLogLevel (logLevel : string) (prev : LogFilter.t)
    : LogFilter.t :=
  if truthy logLevel then
    let levelIndex :=
      findIndex (fun k => String.eqb (level_name k) logLevel) LOG_LEVELS in
    if (0 <=? levelIndex)%Z then
      {| LogFilter.levels := slice 0 (levelIndex + 1) LOG_LEVELS;
         LogFilter.service := LogFilter.service prev;
         LogFilter.searchText := LogFilter.searchText prev;
         LogFilter.limit := LogFilter.limit prev |}
    else prev
  else prev.

(** [logCounts]: the shown entries counted by level. *)
Record Counts := {
  count_error : nat;
  count_warn : nat;
  count_info : nat;
  count_debug : nat;
  count_verbose : nat;
  count_total : nat }.

Definition count_one (counts : Counts) (log : LogEntry.t) : Counts :=
  match LogEntry.level log with
  | LogLevel.error =>
      {| count_error := S (count_error counts); count_warn := count_warn counts;
         count_info := count_info counts; count_debug := count_debug counts;
         count_verbose := count_verbose counts; count_total := count_total counts |}
  | LogLevel.warn =>
      {| count_error := count_error counts; count_warn := S (count_warn counts);
         count_info := count_info counts; count_debug := count_debug counts;
         count_verbose := count_verbose counts; count_total := count_total counts |}
  | LogLevel.info =>
      {| count_error := count_error counts; count_warn := count_warn counts;
         count_info := S (count_info counts); count_debug := count_debug counts;
         count_verbose := count_verbose counts; count_total := count_total counts |}
  | LogLevel.debug =>
      {| count_error := count_error counts; count_warn := count_warn counts;
         count_info := count_info counts; count_debug := S (count_debug counts);
         count_verbose := count_verbose counts; count_total := count_total counts |}
  | LogLevel.verbose =>
      {| count_error := count_error counts; count_warn := count_warn counts;
         count_info := count_info counts; count_debug := count_debug counts;
         count_verbose := S (count_verbose counts); count_total := count_total counts |}
  end.

Definition logCounts (filters : LogFilter.t) (logs : list LogEntry.t) : Counts :=
  let logsToCount := filteredLogs filters logs in
  foldl count_one
    {| count_error := 0; count_warn := 0; count_info := 0; count_debug := 0;
       count_verbose := 0; count_total := length logsToCount |}
    logsToCount.

(** The saved filter sets, by name, beside the current filters. *)
Record Saved := {
  savedFilters : gmap string LogFilter.t;
  current : LogFilter.t }.

(** [saveCurrentFilters]; [filterName] is what [prompt] returned,
    [None] when it was cancelled. *)
Definition saveCurrentFilters (filterName : option string) (st : Saved) : Saved :=
  match filterName with
  | Some name =>
      if truthy name then
        {| savedFilters := <[name := current st]> (savedFilters st);
           current := current st |}
      else st
  | None => st
  end.

(** [loadSavedFilter], for a name of the menu (a saved one). *)
Definition loadSavedFilter (filterName : string) (st : Saved) : Saved :=
  match savedFilters st !! filterName with
  | Some filterToLoad =>
      {| savedFilters := savedFilters st; current := filterToLoad |}
  | None => st
  end.

(** [deleteSavedFilter] *)
Definition deleteSavedFilter (filterName : string) (st : Saved) : Saved :=
  {| savedFilters := delete filterName (savedFilters st); current := current st |}.
End Logs.

(** ** The Dashboard page *)

Module Dashboard.
(** [handleLogUpdate]: the five most recent entries. *)
Definition handleLogUpdate (log : LogEntry.t) (prev : list LogEntry.t)
    : list LogEntry.t :=
  slice 0 5 (log :: prev).

(** [serviceStats] of the Dashboard, without the percentage. *)
Record ServiceStats := { total : Z; active : Z; inactive : Z }.

Definition serviceStats (services : list GrpcServiceInfo.t) : ServiceStats :=
  let total := Z.of_nat (length services) in
  let active :=
    Z.of_nat (length (List.filter
      (fun s => bool_decide (GrpcServiceInfo.status s = GrpcServiceInfo.active))
      services)) in
  {| total := total; active := active; inactive := total - active |}.
End Dashboard.

(** ** The Services page *)

Module Services.
Import GrpcServiceInfo.

(** [filteredServices] *)
Definition filteredServices (searchText : string)
    (services : list GrpcServiceInfo.t) : list GrpcServiceInfo.t :=
  if truthy searchText then
    let searchLower := toLowerCase searchText in
    List.filter (fun service =>
        includes (toLowerCase (name service)) searchLower
        || includes (toLowerCase (package service)) searchLower
        || includes (toLowerCase (url service)) searchLower
        || existsb (fun method => includes (toLowerCase method) searchLower)
                   (methods service))
      services
  else services.

(** [serviceStats] *)
Record ServiceStats := {
  total : nat;
  active : nat;
  inactive : nat;
  methodsCount : nat }.

Definition serviceStats (filteredServices : list GrpcServiceInfo.t) : ServiceStats :=
  {| total := length filteredServices;
     active := length (List.filter (fun s => bool_decide (status s = GrpcServiceInfo.active))
                                   filteredServices);
     inactive := length (List.filter (fun s => bool_decide (status s = GrpcServiceInfo.inactive))
                                     filteredServices);
     methodsCount := foldl (fun sum service => (sum + length (methods service))%nat)
                           0%nat filteredServices |}.
End Services.

(** ** The Stats page *)

Module Stats.

(** The four numbers of [formatUptime], for a whole number of seconds
    below [2^53] in size, where the numbers of JavaScript are exact:
    [%] is the remainder of the truncating division, [Math.floor] of a
    quotient rounds down. Beyond that the quotient of two doubles is
    rounded, and these definitions do not follow it. *)
Definition days (seconds : Z) : Z := (seconds / 86400)%Z.
Definition hours (seconds : Z) : Z := (Z.rem seconds 86400 / 3600)%Z.
Definition minutes (seconds : Z) : Z := (Z.rem seconds 3600 / 60)%Z.
Definition remainingSeconds (seconds : Z) : Z := Z.rem seconds 60.

(** [`${n} ${unit}${n !== 1 ? 's' : ''}`] *)
Definition counted (n : Z) (unit : string) : string :=
  Number_toString n ++ " " ++ unit ++ (if (n =? 1)%Z then "" else "s").

Definition uptime_parts (seconds : Z) : list string :=
  let parts := [] in
  let parts := if (0 <? days seconds)%Z
               then (parts ++ [counted (days seconds) "day"])%list else parts in
  let parts := if (0 <? hours seconds)%Z
               then (parts ++ [counted (hours seconds) "hour"])%list else parts in
  let parts := if (0 <? minutes seconds)%Z
               then (parts ++ [counted (minutes seconds) "minute"])%list else parts in
  if (0 <? remainingSeconds seconds)%Z || (length parts =? 0)%nat
  then (parts ++ [counted (remainingSeconds seconds) "second"])%list else parts.

(** [formatUptime], for a whole number of seconds. *)
Definition formatUptime (seconds : Z) : string := join ", " (uptime_parts seconds).
End Stats.

(** ** The HTTP client ([services/api]) *)

Module ApiService.

(** The options of [getLogs]. *)
Record GetLogsOptions := {
  levels : option (list string);
  service : option string;
  limit : option Z }.

(** The query parameters that [getLogs] builds, in the order of
    [URLSearchParams.append]. *)
Definition getLogs_params (options : option GetLogsOptions) : list (string * string) :=
  let params := [] in
  let params :=
    match options with
    | Some o =>
        match levels o with
        | Some ls => if (0 <? length ls)%nat
                     then (params ++ [("levels", join "," ls)])%list else params
        | None => params
        end
    | None => params
    end in
  let params :=
    match options with
    | Some o =>
        match service o with
        | Some sv => if truthy sv then (params ++ [("service", sv)])%list else params
        | None => params
        end
    | None => params
    end in
  match options with
  | Some o =>
      match limit o with
      | Some n => if (n =? 0)%Z then params
                  else (params ++ [("limit", Number_toString n)])%list
      | None => params
      end
  | None => params
  end.

(** What [Logs.fetchLogs] passes to [getLogs]; the levels of the filter
    go by their names. *)
Definition fetchLogs_options (filters : LogFilter.t) : GetLogsOptions :=
  {| levels := Some (Logs.level_name <$> LogFilter.levels filters);
     service := LogFilter.service filters;
     limit := Some (LogFilter.limit filters) |}.
End ApiService.

(** ** The Logs page and its fetches

    The effect of the page depends on [filters]: whenever the filters
    change it runs again and calls [fetchLogs], which asks the server
    with the levels, the service and the limit of the new filters and,
    when it is answered, replaces the stored entries ([setLogs(data)]).
    The same [fetchLogs] is called on mount and by the refresh timer.
    The effect also registers [handleLogUpdate] anew, with the filters
    of the render, and asks for the logs over the socket; neither
    touches the stored entries. *)

Module LogsPage.

(** The component state and the calls of [fetchLogs] that are not
    settled yet, each with the options it was issued with, oldest
    first. *)
Record t := {
  state : Logs.State;
  inflight : list ApiService.GetLogsOptions }.

(** [fetchLogs()], up to its [await]: the call goes out with the
    filters of this render. *)
Definition fetchLogs (p : t) : t :=
  {| state := state p;
     inflight := (inflight p
                  ++ [ApiService.fetchLogs_options (Logs.filters (state p))])%list |}.


(** What happens to the page: the filters change to [f] ([setFilters],
    through [applyFilters], [resetFilters], [loadSavedFilter], the saved
    log level or the debounced search; React renders again and the
    effect re-runs); the refresh timer fires; a [log] event is pushed;
    the [i]th call in flight is answered with [data]; the [i]th call in
    flight fails, be it by an error or because the clean-up of the
    effect has aborted it. *)
Inductive Event :=
| filters_changed (f : LogFilter.t)
| refresh
| log_pushed (log : LogEntry.t)
| fetch_answered (i : nat) (data : list LogEntry.t)
| fetch_failed (i : nat).

Definition handle (e : Event) (p : t) : t :=
  match e with
  | filters_changed f =>
      fetchLogs {| state := {| Logs.logs := Logs.logs (state p); Logs.filters := f |};
                   inflight := inflight p |}
  | refresh => fetchLogs p
  | log_pushed log =>
      {| state := Logs.act (Logs.push log) (state p); inflight := inflight p |}
  | fetch_answered i data =>
      match inflight p !! i with
      | Some _ => {| state := Logs.act (Logs.setLogs data) (state p);
                     inflight := delete i (inflight p) |}
      | None => p
      end
  | fetch_failed i => {| state := state p; inflight := delete i (inflight p) |}
  end.

Definition run (es : list Event) (p : t) : t :=
  foldl (fun p e => handle e p) p es.

End LogsPage.

Module ApiClient.

(** A [Map] from strings, in insertion order. *)
Fixpoint Map_set {V} (k : string) (v : V) (m : list (string * V)) : list (string * V) :=
  match m with
  | [] => [(k, v)]
  | (k', v') :: m' =>
      if String.eqb k' k then (k', v) :: m' else (k', v') :: Map_set k v m'
  end.

Fixpoint Map_delete {V} (k : string) (m : list (string * V)) : list (string * V) :=
  match m with
  | [] => []
  | (k', v') :: m' =>
      if String.eqb k' k then m' else (k', v') :: Map_delete k m'
  end.

(** The description of a notification: a text, or a value that is no
    string and is handed on as it is. *)
Inductive Description :=
| text (s : string)
| value.

(** Notifications of the response interceptor. *)
Inductive Notification :=
| notification_error (message : string) (description : Description)
| notification_warning (message : string) (description : Description).

(** The client: the pending-call registry, the [AbortController]s made
    so far (each is known by its number), the ones aborted, in order,
    and the notifications shown. *)
Record ApiClient := {
  abortControllers : list (string * nat);
  controllers : nat;
  aborted : list nat;
  shown : list Notification }.

Definition apiClient : ApiClient :=
  {| abortControllers := []; controllers := 0; aborted := []; shown := [] |}.

(** [`${config.method}-${config.url}-${Date.now()}`] *)
Definition requestId (method url : string) (now : Z) : string :=
  method ++ "-" ++ url ++ "-" ++ Number_toString now.

(** The request interceptor; it returns the id put in the
    [X-Request-ID] header and the controller whose signal the request
    gets. *)
Definition on_request (method url : string) (now : Z) (c : ApiClient)
    : ApiClient * (string * nat) :=
  let controller := controllers c in
  let id := requestId method url now in
  ({| abortControllers := Map_set id controller (abortControllers c);
      controllers := S (controllers c);
      aborted := aborted c;
      shown := shown c |},
   (id, controller)).

Definition forget (requestId : option string) (c : ApiClient) : ApiClient :=
  match requestId with
  | Some id =>
      if truthy id then
        {| abortControllers := Map_delete id (abortControllers c);
           controllers := controllers c;
           aborted := aborted c;
           shown := shown c |}
      else c
  | None => c
  end.

(** The response interceptor on a response. *)
Definition on_response (requestId : option string) (c : ApiClient) : ApiClient :=
  forget requestId c.

(** [error.response.data], which is of type [any]: [null] or
    [undefined], where reading [data.message] throws a [TypeError]; or
    any other value, with its [message] if it has one. *)
Inductive ResponseData :=
| data_nullish
| data_value (message : option Description).

(** What an [AxiosError] is, as far as the interceptor looks at it. *)
Inductive AxiosError :=
| with_response (status : Z) (data : ResponseData)
| without_response
| not_sent (message : string).

(** What the promise of the call is rejected with: the error that came
    in, or the [TypeError] thrown inside the interceptor. *)
Inductive Rejection :=
| the_error
| a_TypeError.

Definition notify (n : Notification) (c : ApiClient) : ApiClient :=
  {| abortControllers := abortControllers c;
     controllers := controllers c;
     aborted := aborted c;
     shown := shown c ++ [n] |}.

(** [o || d] *)
Definition or_else (o : option Description) (d : string) : Description :=
  match o with
  | Some (text s) => if truthy s then text s else text d
  | Some value => value
  | None => text d
  end.

(** The rejection handler of the response interceptor: the client
    afterwards and what the call is rejected with. *)
Definition response_rejected (requestId : option string) (error : AxiosError)
    (c : ApiClient) : ApiClient * Rejection :=
  let c := forget requestId c in
  match error with
  | with_response status data =>
      if (status =? 401)%Z || (status =? 403)%Z then
        (notify (notification_error "Authentication Error"
                   (text "You are not authorized to perform this action.")) c,
         the_error)
      else if (status =? 404)%Z then
        (notify (notification_warning "Resource Not Found"
                   (text "The requested resource could not be found.")) c,
         the_error)
      else if (500 <=? status)%Z then
        match data with
        | data_nullish => (c, a_TypeError)
        | data_value message =>
            (notify (notification_error "Server Error"
                       (or_else message "An unexpected server error occurred.")) c,
             the_error)
        end
      else (c, the_error)
  | without_response =>
      (notify (notification_error "Network Error"
                 (text "Unable to connect to the server. Please check your connection.")) c,
       the_error)
  | not_sent message =>
      (notify (notification_error "Request Error"
                 (or_else (Some (text message))
                          "An error occurred while making the request.")) c,
       the_error)
  end.

(** The client after the response interceptor has seen an error. *)
Definition on_error (requestId : option string) (error : AxiosError) (c : ApiClient)
    : ApiClient :=
  (response_rejected requestId error c).1.

(** [abortAllRequests] *)
Definition abortAllRequests (c : ApiClient) : ApiClient :=
  {| abortControllers := [];
     controllers := controllers c;
     aborted := aborted c ++ (snd <$> abortControllers c);
     shown := shown c |}.

(** What happens to the client: a request goes out, a response or an
    error comes in for the request with the given [X-Request-ID], a page
    unmounts. *)
Inductive Event :=
| request (method url : string) (now : Z)
| response (requestId : option string)
| failure (requestId : option string) (error : AxiosError)
| abort_all.

Definition handle (e : Event) (c : ApiClient) : ApiClient :=
  match e with
  | request method url now => (on_request method url now c).1
  | response requestId => on_response requestId c
  | failure requestId error => on_error requestId error c
  | abort_all => abortAllRequests c
  end.

Definition run (es : list Event) (c : ApiClient) : ApiClient :=
  foldl (fun c e => handle e c) c es.

(** Every controller in the registry or among the aborted ones has been
    made. *)
Definition well_formed (c : ApiClient) : Prop :=
  Forall (fun k => k < controllers c)%nat (aborted c) /\
  Forall (fun kv => kv.2 < controllers c)%nat (abortControllers c).

(** The interceptor throws on this error: a response with a status of
    500 or more whose data is [null] or [undefined]. *)
Definition throws (error : AxiosError) : bool :=
  match error with
  | with_response status data_nullish => (500 <=? status)%Z
  | _ => false
  end.

(** The error makes the interceptor show nothing: a response with a
    status that is none of 401, 403 and 404 and below 500, or one on
    which the interceptor throws. *)
Definition silent (error : AxiosError) : bool :=
  match error with
  | with_response status _ =>
      negb ((status =? 401)%Z || (status =? 403)%Z || (status =? 404)%Z)
      && (status <? 500)%Z
      || throws error
  | _ => false
  end.
End ApiClient.

(** ** The application shell *)

Module App.

(** The keys and paths of [routes]. *)
Definition routes : list (string * string) :=
  [("1", "/"); ("2", "/services"); ("3", "/connections");
   ("4", "/logs"); ("5", "/stats"); ("6", "/settings")].

(** [getSelectedKey], for [location.pathname]. *)
Definition getSelectedKey (pathname : string) : string :=
  let path := match split_on "/" pathname !! 1%nat with
              | Some p => if truthy p then p else "dashboard"
              | None => "dashboard"
              end in
  match List.find (fun r => String.eqb r.2 ("/" ++ path)
                            || (String.eqb r.2 "/" && String.eqb path "dashboard"))
                  routes with
  | Some route => if truthy route.1 then route.1 else "1"
  | None => "1"
  end.

(** [handleMenuClick]: where it navigates to, if anywhere. *)
Definition handleMenuClick (key : string) : option string :=
  match List.find (fun r => String.eqb r.1 key) routes with
  | Some route => Some route.2
  | None => None
  end.
End App.

(** ** Sample data for the examples *)

Definition sample_log (level : LogLevel.t) (message : string) : LogEntry.t :=
  {| LogEntry.id := message;
     LogEntry.timestamp := "2025-01-01T00:00:00.000Z";
     LogEntry.level := level;
     LogEntry.message := message;
     LogEntry.context := "GrpcService";
     LogEntry.service := None;
     LogEntry.method := None;
     LogEntry.traceId := None |}.

(** The [n]th of a series of distinct entries. *)
Definition numbered_log (n : nat) : LogEntry.t :=
  sample_log LogLevel.info (String (ascii_of_nat n) EmptyString).

Definition sample_connection (id : string) (status : GrpcConnection.Status)
    : GrpcConnection.t :=
  {| GrpcConnection.id := id;
     GrpcConnection.clientId := "client-" ++ id;
     GrpcConnection.service := "UserService";
     GrpcConnection.url := "localhost:50051";
     GrpcConnection.status := status;
     GrpcConnection.established := "2025-01-01T00:00:00.000Z";
     GrpcConnection.lastActivity := "2025-01-01T00:00:01.000Z";
     GrpcConnection.metadata := None |}.

(** Only errors are wanted. *)
Definition errors_only : LogFilter.t :=
  {| LogFilter.levels := [LogLevel.error];
     LogFilter.service := None;
     LogFilter.searchText := "";
     LogFilter.limit := 50 |}.

(** ** Event names

    [keyof SocketEventHandlers]: the only keys the handler table can have. *)

Inductive EventName :=
| Elog | Eservices | Econnections | Econnection | Estats
| Econnect | Edisconnect | Econnect_error.

#[global] Instance EventName_eq_dec : EqDecision EventName.
Proof. solve_decision. Defined.

Definition EventName_to_nat (e : EventName) : nat :=
  match e with
  | Elog => 0 | Eservices => 1 | Econnections => 2 | Econnection => 3
  | Estats => 4 | Econnect => 5 | Edisconnect => 6 | Econnect_error => 7
  end.

Definition EventName_of_nat (n : nat) : option EventName :=
  match n with
  | 0 => Some Elog | 1 => Some Eservices | 2 => Some Econnections
  | 3 => Some Econnection | 4 => Some Estats | 5 => Some Econnect
  | 6 => Some Edisconnect | 7 => Some Econnect_error | _ => None
  end.

#[global] Program Instance EventName_countable : Countable EventName :=
  inj_countable EventName_to_nat EventName_of_nat _.
Next Obligation. by intros []. Qed.

(** A handler is a JavaScript function value; [h !== handler] compares
    references, so a handler is represented by its reference. *)
Abbreviation FnRef := nat (only parsing).

(** ** The socket service *)

Module SocketService.

(** A concrete setting for the examples: values are numbers, the world
    is the list of the handlers that ran, the handler with reference 2
    throws 99 whatever it is given, and [io] succeeds. *)
Definition example_call (h : FnRef) (args : list nat) (w : list nat)
    : list nat * option nat :=
  ((w ++ [h])%list, if Nat.eqb h 2 then Some 99 else None).

Definition example_io (addr : string) : option nat := None.

Section Service.

(** JavaScript values that the service only passes around: payloads of
    pushed events, errors, thrown exceptions. *)
Variable Value : Type.

(** What the registered handlers act on (React state, notifications).
    Handlers do not call back into the service. *)
Variable World : Type.

(** [call h args w]: running handler [h] on [args] in world [w]; the
    second component is [Some e] when the handler throws [e]. *)
Variable call : FnRef -> list Value -> World -> World * option Value.

(** [io address]: [Some e] when creating the socket throws [e]. *)
Variable io_throws : string -> option Value.

(** The socket.io [Socket] object, as far as the service reads it. *)
Record Socket := { address : string; connected : bool }.

Record SocketService := {
  socket : option Socket;
  handlers : gmap EventName (list FnRef);
  reconnectAttempts : Z;
  maxReconnectAttempts : Z;
  reconnectionDelay : Z;
  url : string;
  autoReconnect : bool }.

Definition namespace : string := "/grpc-dashboard".

(** Field defaults of the class; [socketService = new SocketService()]. *)
Definition socketService : SocketService :=
  {| socket := None; handlers := ∅; reconnectAttempts := 0;
     maxReconnectAttempts := 5; reconnectionDelay := 1000;
     url := ""; autoReconnect := true |}.

(** Console messages. *)
Inductive Message :=
| WebSocket_connected
| WebSocket_disconnected (reason : string)
| WebSocket_connection_error (error : Value)
| Attempting_to_reconnect (attempt maxAttempts : Z)
| Maximum_reconnection_attempts_reached
| Error_creating_socket_connection (error : Value)
| Error_in_handler (event : EventName) (error : Value)
| Cannot_get (what : string).

(** What the service does to its environment, in order. *)
Inductive Obs :=
| console_log (m : Message)
| console_warn (m : Message)
| console_error (m : Message)
| Invoked (h : FnRef) (args : list Value)
| setTimeout (delay : Z)
| emit (name : string) (options : option Value)
| io_open (addr : string)
| socket_disconnect.

(** The whole system: the singleton, the handlers' world, the pending
    [setTimeout] callbacks (each one is [() => this.connect(this.url)],
    kept by its delay) and the trace of observable actions. *)
Record Sys := {
  this : SocketService;
  world : World;
  timers : list Z;
  out : list Obs }.

(** *** A state monad with exceptions *)

Inductive Completion (A : Type) :=
| Normal (a : A)
| Throw (e : Value).
Arguments Normal {A} a.
Arguments Throw {A} e.

Definition M (A : Type) : Type := Sys -> Completion A * Sys.

Definition ret {A} (a : A) : M A := fun s => (Normal a, s).

Definition bind {A B} (m : M A) (k : A -> M B) : M B :=
  fun s => match m s with
           | (Normal a, s') => k a s'
           | (Throw e, s') => (Throw e, s')
           end.

Definition throw {A} (e : Value) : M A := fun s => (Throw e, s).

Definition try_catch {A} (m : M A) (h : Value -> M A) : M A :=
  fun s => match m s with
           | (Normal a, s') => (Normal a, s')
           | (Throw e, s') => h e s'
           end.

Notation "x <- m ;; k" := (bind m (fun x => k))
  (at level 100, m at next level, right associativity).
Notation "m ;;; k" := (bind m (fun _ => k))
  (at level 100, right associativity).

Definition get_this : M SocketService := fun s => (Normal (this s), s).

Definition modify_this (f : SocketService -> SocketService) : M unit :=
  fun s => (Normal tt,
            {| this := f (this s); world := world s;
               timers := timers s; out := out s |}).

Definition tell (o : Obs) : M unit :=
  fun s => (Normal tt,
            {| this := this s; world := world s;
               timers := timers s; out := out s ++ [o] |}).

Definition when (b : bool) (m : M unit) : M unit := if b then m else ret tt.

(** [Array.prototype.forEach]: an exception of the callback ends the loop. *)
Fixpoint forEach {A} (l : list A) (f : A -> M unit) : M unit :=
  match l with
  | [] => ret tt
  | x :: l' => f x ;;; forEach l' f
  end.

(** Calling a handler: it runs on the world and may throw. *)
Definition apply_handler (h : FnRef) (args : list Value) : M unit :=
  fun s =>
    let '(w, r) := call h args (world s) in
    let s' := {| this := this s; world := w; timers := timers s;
                 out := out s ++ [Invoked h args] |} in
    match r with
    | None => (Normal tt, s')
    | Some e => (Throw e, s')
    end.

(** Field setters. *)
Definition set_socket (sk : option Socket) (t : SocketService) :=
  {| socket := sk; handlers := handlers t;
     reconnectAttempts := reconnectAttempts t;
     maxReconnectAttempts := maxReconnectAttempts t;
     reconnectionDelay := reconnectionDelay t;
     url := url t; autoReconnect := autoReconnect t |}.

Definition set_handlers (hs : gmap EventName (list FnRef)) (t : SocketService) :=
  {| socket := socket t; handlers := hs;
     reconnectAttempts := reconnectAttempts t;
     maxReconnectAttempts := maxReconnectAttempts t;
     reconnectionDelay := reconnectionDelay t;
     url := url t; autoReconnect := autoReconnect t |}.

Definition set_reconnectAttempts (n : Z) (t : SocketService) :=
  {| socket := socket t; handlers := handlers t;
     reconnectAttempts := n;
     maxReconnectAttempts := maxReconnectAttempts t;
     reconnectionDelay := reconnectionDelay t;
     url := url t; autoReconnect := autoReconnect t |}.

Definition set_maxReconnectAttempts (n : Z) (t : SocketService) :=
  {| socket := socket t; handlers := handlers t;
     reconnectAttempts := reconnectAttempts t;
     maxReconnectAttempts := n;
     reconnectionDelay := reconnectionDelay t;
     url := url t; autoReconnect := autoReconnect t |}.

Definition set_reconnectionDelay (n : Z) (t : SocketService) :=
  {| socket := socket t; handlers := handlers t;
     reconnectAttempts := reconnectAttempts t;
     maxReconnectAttempts := maxReconnectAttempts t;
     reconnectionDelay := n;
     url := url t; autoReconnect := autoReconnect t |}.

Definition set_url (u : string) (t : SocketService) :=
  {| socket := socket t; handlers := handlers t;
     reconnectAttempts := reconnectAttempts t;
     maxReconnectAttempts := maxReconnectAttempts t;
     reconnectionDelay := reconnectionDelay t;
     url := u; autoReconnect := autoReconnect t |}.

Definition set_autoReconnect (b : bool) (t : SocketService) :=
  {| socket := socket t; handlers := handlers t;
     reconnectAttempts := reconnectAttempts t;
     maxReconnectAttempts := maxReconnectAttempts t;
     reconnectionDelay := reconnectionDelay t;
     url := url t; autoReconnect := b |}.

(** *** Methods of the class *)

(** [triggerHandlers(event, ...args)] *)
Definition triggerHandlers (event : EventName) (args : list Value) : M unit :=
  t <- get_this ;;
  match handlers t !! event with
  | Some hs =>
      forEach hs (fun handler =>
        try_catch (apply_handler handler args)
                  (fun error => tell (console_error (Error_in_handler event error))))
  | None => ret tt
  end.

(** [window.setTimeout(() => this.connect(this.url), delay)] *)
Definition schedule_reconnect (delay : Z) : M unit :=
  fun s => (Normal tt,
            {| this := this s; world := world s;
               timers := timers s ++ [delay];
               out := out s ++ [setTimeout delay] |}).

(** [attemptReconnect()] *)
Definition attemptReconnect : M unit :=
  t <- get_this ;;
  if bool_decide (reconnectAttempts t < maxReconnectAttempts t)%Z then
    modify_this (set_reconnectAttempts (reconnectAttempts t + 1)) ;;;
    t <- get_this ;;
    tell (console_log (Attempting_to_reconnect (reconnectAttempts t)
                                               (maxReconnectAttempts t))) ;;;
    schedule_reconnect (reconnectionDelay t * reconnectAttempts t)
  else
    tell (console_error Maximum_reconnection_attempts_reached).

(** The listeners that [connect] installs on the socket. *)
Definition on_connect : M unit :=
  tell (console_log WebSocket_connected) ;;;
  modify_this (set_reconnectAttempts 0) ;;;
  triggerHandlers Econnect [].

Definition on_disconnect (reason : string) : M unit :=
  tell (console_log (WebSocket_disconnected reason)) ;;;
  triggerHandlers Edisconnect [] ;;;
  t <- get_this ;;
  when (autoReconnect t && negb (String.eqb reason "io client disconnect"))
       attemptReconnect.

Definition on_connect_error (error : Value) : M unit :=
  tell (console_error (WebSocket_connection_error error)) ;;;
  triggerHandlers Econnect_error [error] ;;;
  t <- get_this ;;
  when (autoReconnect t) attemptReconnect.

(** [log], [services], [connections], [connection], [stats] *)
Definition on_push (event : EventName) (payload : Value) : M unit :=
  triggerHandlers event [payload].

(** [socket.disconnect()] of socket.io: a connected socket is closed and
    its [disconnect] listeners run at once with the reason
    ["io client disconnect"]. *)
Definition Socket_disconnect (sk : Socket) : M unit :=
  tell socket_disconnect ;;;
  when (connected sk)
       (modify_this (set_socket (Some {| address := address sk; connected := false |})) ;;;
        on_disconnect "io client disconnect").

(** [disconnect()] *)
Definition disconnect : M unit :=
  t <- get_this ;;
  match socket t with
  | Some sk =>
      modify_this (set_autoReconnect false) ;;;
      Socket_disconnect sk ;;;
      modify_this (set_socket None) ;;;
      modify_this (set_reconnectAttempts 0)
  | None => ret tt
  end.

(** [io(address, options)] *)
Definition io (addr : string) : M Socket :=
  tell (io_open addr) ;;;
  match io_throws addr with
  | Some e => throw e
  | None => ret {| address := addr; connected := false |}
  end.

(** [connect(url)] *)
Definition connect (u : string) : M (option Socket) :=
  modify_this (set_url u) ;;;
  t <- get_this ;;
  when (bool_decide (is_Some (socket t))) disconnect ;;;
  try_catch
    (sk <- io (u ++ namespace) ;;
     modify_this (set_socket (Some sk)) ;;;
     t <- get_this ;;
     ret (socket t))
    (fun error =>
       tell (console_error (Error_creating_socket_connection error)) ;;;
       ret None).

(** [on(event, handler)]; the function it returns is [unsubscribe]. *)
Definition on (event : EventName) (handler : FnRef) : M unit :=
  t <- get_this ;;
  when (bool_decide (handlers t !! event = None))
       (modify_this (fun t => set_handlers (<[event := []]> (handlers t)) t)) ;;;
  modify_this (fun t =>
    set_handlers (alter (fun hs => (hs ++ [handler])%list) event (handlers t)) t).

(** [off(event, handler)] *)
Definition off (event : EventName) (handler : FnRef) : M unit :=
  t <- get_this ;;
  match handlers t !! event with
  | Some hs =>
      modify_this (set_handlers
        (<[event := filter (fun h => h ≠ handler) hs]> (handlers t)))
  | None => ret tt
  end.

Definition unsubscribe (event : EventName) (handler : FnRef) : M unit :=
  off event handler.

(** [isConnected()] *)
Definition isConnected (t : SocketService) : bool :=
  match socket t with
  | Some sk => connected sk
  | None => false
  end.

(** The four outbound requests share one shape. *)
Definition request (name what : string) (options : option Value) : M unit :=
  t <- get_this ;;
  if isConnected t then tell (emit name options)
  else tell (console_warn (Cannot_get what)).

Definition getServices : M unit := request "getServices" "services" None.
Definition getConnections : M unit := request "getConnections" "connections" None.
Definition getLogs (options : option Value) : M unit := request "getLogs" "logs" options.
Definition getStats : M unit := request "getStats" "stats" None.

(** [setAutoReconnect(value)] *)
Definition setAutoReconnect (value : bool) : M unit :=
  modify_this (set_autoReconnect value).

(** [configureReconnection({maxAttempts, delay})] *)
Definition configureReconnection (maxAttempts delay : option Z) : M unit :=
  match maxAttempts with
  | Some n => modify_this (set_maxReconnectAttempts n)
  | None => ret tt
  end ;;;
  match delay with
  | Some d => modify_this (set_reconnectionDelay d)
  | None => ret tt
  end.

(** *** The environment's moves

    The socket events reach the listeners of the current socket only: a
    socket closed by [socket.disconnect()] emits nothing more. *)

Definition set_connected (b : bool) : M unit :=
  modify_this (fun t =>
    match socket t with
    | Some sk => set_socket (Some {| address := address sk; connected := b |}) t
    | None => t
    end).

Definition has_socket (t : SocketService) : bool :=
  match socket t with Some _ => true | None => false end.

Inductive Input :=
| Call_connect (u : string)
| Call_disconnect
| Call_on (event : EventName) (handler : FnRef)
| Call_off (event : EventName) (handler : FnRef)
| Call_getServices
| Call_getConnections
| Call_getLogs (options : option Value)
| Call_getStats
| Call_setAutoReconnect (value : bool)
| Call_configureReconnection (maxAttempts delay : option Z)
| Socket_connect
| Socket_close (reason : string)
| Socket_connect_error (error : Value)
| Socket_push (event : EventName) (payload : Value)
| Timer_fires (i : nat).

(** The callback of [attemptReconnect]'s timer. *)
Definition timer_callback : M unit :=
  t <- get_this ;;
  _ <- connect (url t) ;;
  ret tt.

Definition remove_timer (i : nat) : M unit :=
  fun s => (Normal tt,
            {| this := this s; world := world s;
               timers := delete i (timers s); out := out s |}).

Definition step (i : Input) : M unit :=
  match i with
  | Call_connect u => _ <- connect u ;; ret tt
  | Call_disconnect => disconnect
  | Call_on event handler => on event handler
  | Call_off event handler => off event handler
  | Call_getServices => getServices
  | Call_getConnections => getConnections
  | Call_getLogs options => getLogs options
  | Call_getStats => getStats
  | Call_setAutoReconnect value => setAutoReconnect value
  | Call_configureReconnection maxAttempts delay =>
      configureReconnection maxAttempts delay
  | Socket_connect =>
      t <- get_this ;;
      when (has_socket t) (set_connected true ;;; on_connect)
  | Socket_close reason =>
      t <- get_this ;;
      when (has_socket t) (set_connected false ;;; on_disconnect reason)
  | Socket_connect_error error =>
      t <- get_this ;;
      when (has_socket t) (on_connect_error error)
  | Socket_push event payload =>
      t <- get_this ;;
      when (has_socket t) (on_push event payload)
  | Timer_fires i =>
      fun s => match timers s !! i with
               | Some _ => (remove_timer i ;;; timer_callback) s
               | None => (Normal tt, s)
               end
  end.

Definition exec {A} (m : M A) (s : Sys) : Sys := (m s).2.

Definition steps (l : list Input) (s : Sys) : Sys :=
  foldl (fun s i => exec (step i) s) s l.

Definition initial (w : World) : Sys :=
  {| this := socketService; world := w; timers := []; out := [] |}.

Inductive reachable (w : World) : Sys -> Prop :=
| reachable_initial : reachable w (initial w)
| reachable_step s i : reachable w s -> reachable w (exec (step i) s).

(** *** Reading the trace *)

Definition scheduled (tr : list Obs) : list Z :=
  omap (fun o => match o with setTimeout d => Some d | _ => None end) tr.

Definition invocations (tr : list Obs) : list (FnRef * list Value) :=
  omap (fun o => match o with Invoked h args => Some (h, args) | _ => None end) tr.

Definition emitted (tr : list Obs) : list (string * option Value) :=
  omap (fun o => match o with emit n v => Some (n, v) | _ => None end) tr.

(** The inputs that are an unexpected close of the channel: the socket
    closed for a reason other than a local [disconnect], or failed to
    connect. *)
Definition unexpected_close (i : Input) : bool :=
  match i with
  | Socket_close reason => negb (String.eqb reason "io client disconnect")
  | Socket_connect_error _ => true
  | _ => false
  end.

(** A failure as seen by the service: any close, any connection error,
    and a retry timer that fires. *)
Definition failure (i : Input) : bool :=
  match i with
  | Socket_close _ | Socket_connect_error _ | Timer_fires _ => true
  | _ => false
  end.

(** The client has given up: it is not connected, and a close cannot
    lead to a retry, because no attempt is left or because
    auto-reconnect is off. *)
Definition gave_up (t : SocketService) : Prop :=
  (autoReconnect t = false
   \/ (maxReconnectAttempts t <= reconnectAttempts t)%Z) /\
  isConnected t = false.

(** Without a socket the attempt counter is 0. *)
Definition idle_zero (t : SocketService) : Prop :=
  socket t = None -> reconnectAttempts t = 0%Z.

(** Every input but [setAutoReconnect(true)]. *)
Definition not_enabling (i : Input) : bool :=
  match i with
  | Call_setAutoReconnect true => false
  | _ => true
  end.

(** The handler list of an event, empty when none was ever registered. *)
Definition registered (t : SocketService) (event : EventName) : list FnRef :=
  default [] (handlers t !! event).

(** What a dispatch over the handler list [hs] does, told directly:
    every handler runs in turn on the world the previous one left, and a
    thrown exception is logged. *)
Fixpoint dispatch (event : EventName) (args : list Value) (hs : list FnRef)
    (w : World) : World * list Obs :=
  match hs with
  | [] => (w, [])
  | h :: hs' =>
      let '(w1, r) := call h args w in
      let '(w2, tr) := dispatch event args hs' w1 in
      (w2, Invoked h args ::
           match r with
           | Some e => console_error (Error_in_handler event e) :: tr
           | None => tr
           end)
  end.

(** The state [s] after the handlers moved the world to [wt.1] and
    [wt.2] was observed. *)
Definition after (s : Sys) (wt : World * list Obs) : Sys :=
  {| this := this s; world := wt.1; timers := timers s;
     out := out s ++ wt.2 |}.

(** *** The retry decision, told directly

    [c] is what the listener requires before it calls
    [attemptReconnect]. *)

Definition retrying (c : bool) (t : SocketService) : bool :=
  c && bool_decide (reconnectAttempts t < maxReconnectAttempts t)%Z.

Definition retry_delay (t : SocketService) : Z :=
  (reconnectionDelay t * (reconnectAttempts t + 1))%Z.

Definition retry_this (c : bool) (t : SocketService) : SocketService :=
  if retrying c t then set_reconnectAttempts (reconnectAttempts t + 1) t else t.

Definition retry_timers (c : bool) (t : SocketService) : list Z :=
  if retrying c t then [retry_delay t] else [].

Definition retry_out (c : bool) (t : SocketService) : list Obs :=
  if c then
    if bool_decide (reconnectAttempts t < maxReconnectAttempts t)%Z then
      [console_log (Attempting_to_reconnect (reconnectAttempts t + 1)
                                            (maxReconnectAttempts t));
       setTimeout (retry_delay t)]
    else [console_error Maximum_reconnection_attempts_reached]
  else [].

(** Sockets that [io] created, and calls of [socket.disconnect()]. *)
Definition opened (tr : list Obs) : nat :=
  length (omap (fun o => match o with
                         | io_open a => match io_throws a with Some _ => None | None => Some a end
                         | _ => None
                         end) tr).

Definition closed (tr : list Obs) : nat :=
  length (omap (fun o => match o with
                         | socket_disconnect => Some tt
                         | _ => None
                         end) tr).

(** Inputs that change the handler table, and inputs that change the
    reconnection settings. *)
Definition touches_handlers (i : Input) : bool :=
  match i with
  | Call_on _ _ | Call_off _ _ => true
  | _ => false
  end.

Definition configures (i : Input) : bool :=
  match i with
  | Call_configureReconnection _ _ => true
  | _ => false
  end.

(** *** Callers in the pages

    [reconnectSocket] of the Settings page and [toggleConnection] of the
    application shell, as far as they act on the service ([connected] is
    the shell's own flag, [origin] is [window.location.origin]). *)

Definition Settings_reconnectSocket (u : string) : M unit :=
  disconnect ;;;
  _ <- connect u ;;
  ret tt.

Definition App_toggleConnection (connected : bool) (origin : string) : M unit :=
  if connected then disconnect
  else (_ <- connect origin ;; ret tt).


(** A delay of the backoff of [t]: the base delay times an attempt
    number between 1 and the maximum. *)
Definition backoff_delay (t : SocketService) (d : Z) : Prop :=
  exists k, (1 <= k <= maxReconnectAttempts t)%Z /\ d = (reconnectionDelay t * k)%Z.


(** One socket at a time: every socket that [io] created has been
    closed, except the one the client holds. *)
Definition single_channel (s : Sys) : Prop :=
  opened (out s) = (closed (out s) + if has_socket (this s) then 1 else 0)%nat.

(** The attempt counter lies between 0 and the maximum. *)
Definition attempts_in_range (t : SocketService) : Prop :=
  (0 <= reconnectAttempts t <= maxReconnectAttempts t)%Z.


(** *** Dispatch *)

Lemma after_id s : after s (world s, []) = s.
Proof. destruct s; unfold after; simpl. by rewrite app_nil_r. Qed.

Lemma forEach_dispatch event args hs s :
  forEach hs (fun handler =>
      try_catch (apply_handler handler args)
                (fun error => tell (console_error (Error_in_handler event error)))) s
  = (Normal tt, after s (dispatch event args hs (world s))).
Proof.
  revert s. induction hs as [|h hs IH]; intros s; simpl.
  - by rewrite after_id.
  - unfold bind, try_catch, apply_handler.
    destruct (call h args (world s)) as [w1 r] eqn:Hc.
    destruct r as [e|]; simpl; rewrite IH; simpl;
      destruct (dispatch event args hs w1) as [w2 tr];
      unfold after; simpl; by rewrite <- !app_assoc.
Qed.

Lemma triggerHandlers_eq event args s :
  triggerHandlers event args s
  = (Normal tt, after s (dispatch event args (registered (this s) event) (world s))).
Proof.
  unfold triggerHandlers, registered, bind, get_this.
  destruct (handlers (this s) !! event) as [hs|]; simpl.
  - apply forEach_dispatch.
  - unfold ret. by rewrite after_id.
Qed.

Lemma invocations_dispatch event args hs w :
  invocations (dispatch event args hs w).2 = map (fun h => (h, args)) hs.
Proof.
  revert w. induction hs as [|h hs IH]; intros w; simpl; [done|].
  destruct (call h args w) as [w1 r]. specialize (IH w1).
  destruct (dispatch event args hs w1) as [w2 tr]. simpl in *.
  destruct r; simpl; by rewrite IH.
Qed.

Lemma scheduled_dispatch event args hs w :
  scheduled (dispatch event args hs w).2 = [].
Proof.
  revert w. induction hs as [|h hs IH]; intros w; simpl; [done|].
  destruct (call h args w) as [w1 r]. specialize (IH w1).
  destruct (dispatch event args hs w1) as [w2 tr]. simpl in *.
  by destruct r.
Qed.

Lemma on_registered event handler s :
  (on event handler s).1 = Normal tt /\
  world (exec (on event handler) s) = world s /\
  timers (exec (on event handler) s) = timers s /\
  out (exec (on event handler) s) = out s /\
  handlers (this (exec (on event handler) s))
  = <[event := (registered (this s) event ++ [handler])%list]> (handlers (this s)).
Proof.
  unfold exec, on, registered, bind, get_this, when, modify_this, ret.
  case_bool_decide as Hl; simpl.
  - rewrite Hl. simpl. repeat split; try done.
    apply map_eq. intros e. rewrite lookup_alter.
    destruct (decide (event = e)) as [->|Hne].
    + by rewrite !lookup_insert_eq.
    + by rewrite !lookup_insert_ne.
  - destruct (handlers (this s) !! event) as [hs|] eqn:Hhs; [|done].
    simpl. repeat split; try done.
    apply map_eq. intros e. rewrite lookup_alter.
    destruct (decide (event = e)) as [->|Hne].
    + by rewrite Hhs, lookup_insert_eq.
    + by rewrite lookup_insert_ne.
Qed.

(** C8. Dispatching an event runs the handlers of that event in the
    order in which [on] registered them (each [on] puts its handler at
    the end of the list); whatever the handlers do, every one of them is
    invoked, an exception thrown by one is logged with [console.error],
    and the dispatcher completes normally, changing neither the service
    nor its timers. *)
Theorem dispatch_in_registration_order event args (s : Sys) :
  (forall handler,
      registered (this (exec (on event handler) s)) event
      = (registered (this s) event ++ [handler])%list) /\
  (triggerHandlers event args s).1 = Normal tt /\
  this (exec (triggerHandlers event args) s) = this s /\
  timers (exec (triggerHandlers event args) s) = timers s /\
  out (exec (triggerHandlers event args) s)
  = (out s ++ (dispatch event args (registered (this s) event) (world s)).2)%list /\
  invocations (dispatch event args (registered (this s) event) (world s)).2
  = map (fun h => (h, args)) (registered (this s) event) /\
  (forall h rest w,
      (dispatch event args (h :: rest) w).2
      = (Invoked h args ::
         match (call h args w).2 with
         | Some e => [console_error (Error_in_handler event e)]
         | None => []
         end ++ (dispatch event args rest (call h args w).1).2)%list).
Proof.
  split.
  { intros handler. destruct (on_registered event handler s) as (_ & _ & _ & _ & Hh).
    unfold registered at 1. by rewrite Hh, lookup_insert_eq. }
  unfold exec. rewrite triggerHandlers_eq. simpl.
  rewrite invocations_dispatch.
  repeat split; try done.
  intros h rest w. simpl.
  destruct (call h args w) as [w1 r]. simpl.
  destruct (dispatch event args rest w1) as [w2 tr]. simpl.
  by destruct r.
Qed.

(** *** Unregistration *)

(** C10. [off] (and the function that [on] returns, which is [off] on
    the same event and handler) removes every occurrence of the handler
    from the list of its event, keeps the other handlers of that event in
    their order, and leaves the lists of all other events as they were
    (the table without that event is unchanged);
    registering one function twice and unregistering it once removes
    both occurrences. *)
Theorem off_removes_every_occurrence event handler (s : Sys) :
  unsubscribe event handler = off event handler /\
  (off event handler s).1 = Normal tt /\
  registered (this (exec (off event handler) s)) event
  = filter (fun h => h ≠ handler) (registered (this s) event) /\
  (handler ∉ registered (this (exec (off event handler) s)) event) /\
  delete event (handlers (this (exec (off event handler) s)))
  = delete event (handlers (this s)) /\
  registered
    (this (exec (off event handler)
            (exec (on event handler) (exec (on event handler) s)))) event
  = filter (fun h => h ≠ handler) (registered (this s) event).
Proof.
  assert (Hoff : forall s0 : Sys,
    (off event handler s0).1 = Normal tt /\
    registered (this (exec (off event handler) s0)) event
    = filter (fun h => h ≠ handler) (registered (this s0) event) /\
    delete event (handlers (this (exec (off event handler) s0)))
    = delete event (handlers (this s0))).
  { intros s0. unfold exec, off, registered, bind, get_this, modify_this, ret.
    destruct (handlers (this s0) !! event) as [hs|] eqn:Hhs; simpl.
    - rewrite lookup_insert_eq. simpl. repeat split; try done.
      apply delete_insert_eq.
    - rewrite Hhs. done. }
  destruct (Hoff s) as (Hn & Hf & Ho).
  split; [done|]. split; [done|]. split; [done|]. split.
  { rewrite Hf. intros Hin. apply list_elem_of_filter in Hin. by destruct Hin. }
  split; [done|].
  destruct (Hoff (exec (on event handler) (exec (on event handler) s)))
    as (_ & Hf2 & _).
  rewrite Hf2.
  destruct (on_registered event handler (exec (on event handler) s))
    as (_ & _ & _ & _ & H2).
  destruct (on_registered event handler s) as (_ & _ & _ & _ & H1).
  unfold registered at 1. rewrite H2, lookup_insert_eq. simpl.
  unfold registered at 1. rewrite H1, lookup_insert_eq. simpl.
  rewrite !filter_app.
  rewrite (filter_cons_False _ handler []) by (intros Hc; by apply Hc).
  by rewrite filter_nil, !app_nil_r.
Qed.

(** *** Outbound requests *)

Lemma request_spec name what options (s : Sys) :
  (request name what options s).1 = Normal tt /\
  exec (request name what options) s
  = after s (world s,
             if isConnected (this s) then [emit name options]
             else [console_warn (Cannot_get what)]).
Proof.
  unfold exec, request, bind, get_this, tell, after.
  by destruct (isConnected (this s)).
Qed.

(** C9. Each of the four outbound requests, on a connected socket, is
    emitted exactly once; otherwise one warning is written and nothing
    is emitted. In both cases the service, the world and the pending
    timers are what they were: nothing is kept for later. *)
Theorem request_emitted_once_or_dropped (options : option Value) (s : Sys) :
  let outcome name what opts :=
    after s (world s,
             if isConnected (this s) then [emit name opts]
             else [console_warn (Cannot_get what)]) in
  exec getServices s = outcome "getServices" "services" None /\
  exec getConnections s = outcome "getConnections" "connections" None /\
  exec (getLogs options) s = outcome "getLogs" "logs" options /\
  exec getStats s = outcome "getStats" "stats" None /\
  (forall name what opts,
      this (outcome name what opts) = this s /\
      world (outcome name what opts) = world s /\
      timers (outcome name what opts) = timers s /\
      emitted (out (outcome name what opts))
      = (emitted (out s)
         ++ if isConnected (this s) then [(name, opts)] else [])%list).
Proof.
  intros outcome. unfold getServices, getConnections, getLogs, getStats.
  repeat split; try apply request_spec.
  unfold outcome, after, emitted; simpl. rewrite omap_app.
  by destruct (isConnected (this s)).
Qed.

(** *** Reconnection *)

Ltac munfold :=
  unfold exec, bind, ret, get_this, modify_this, tell, when, schedule_reconnect,
    set_connected, remove_timer in *.

Lemma scheduled_app tr1 tr2 :
  scheduled (tr1 ++ tr2) = (scheduled tr1 ++ scheduled tr2)%list.
Proof. apply omap_app. Qed.

Lemma attemptReconnect_eq (s : Sys) :
  attemptReconnect s
  = (Normal tt,
     let t := this s in
     let n := (reconnectAttempts t + 1)%Z in
     if bool_decide (reconnectAttempts t < maxReconnectAttempts t)%Z then
       {| this := set_reconnectAttempts n t; world := world s;
          timers := timers s ++ [(reconnectionDelay t * n)%Z];
          out := out s ++ [console_log (Attempting_to_reconnect n (maxReconnectAttempts t));
                           setTimeout (reconnectionDelay t * n)%Z] |}
     else
       {| this := t; world := world s; timers := timers s;
          out := out s ++ [console_error Maximum_reconnection_attempts_reached] |}).
Proof.
  unfold attemptReconnect. munfold. case_bool_decide; simpl; [|done].
  by rewrite <- app_assoc.
Qed.

(** One unexpected close with attempts left. *)
Lemma unexpected_close_step (s : Sys) (i : Input) :
  unexpected_close i = true ->
  has_socket (this s) = true ->
  autoReconnect (this s) = true ->
  (reconnectAttempts (this s) < maxReconnectAttempts (this s))%Z ->
  let s' := exec (step i) s in
  let n := (reconnectAttempts (this s) + 1)%Z in
  reconnectAttempts (this s') = n /\
  scheduled (out s') = (scheduled (out s) ++ [(reconnectionDelay (this s) * n)%Z])%list /\
  timers s' = (timers s ++ [(reconnectionDelay (this s) * n)%Z])%list /\
  maxReconnectAttempts (this s') = maxReconnectAttempts (this s) /\
  reconnectionDelay (this s') = reconnectionDelay (this s) /\
  autoReconnect (this s') = true /\
  has_socket (this s') = true.
Proof.
  intros Hi Hs Ha Hlt.
  destruct i; try discriminate Hi; simpl in *.
  - unfold on_disconnect. munfold. rewrite Hs. simpl.
    rewrite triggerHandlers_eq. simpl.
    unfold has_socket in Hs. destruct (socket (this s)) as [sk|] eqn:Hsk; [|done].
    simpl. rewrite Ha, Hi. simpl. rewrite attemptReconnect_eq. simpl.
    rewrite bool_decide_true by done. simpl.
    rewrite !scheduled_app, scheduled_dispatch. simpl.
    by rewrite !app_nil_r.
  - unfold on_connect_error. munfold. rewrite Hs. simpl.
    rewrite triggerHandlers_eq. simpl.
    rewrite Ha. simpl. rewrite attemptReconnect_eq. simpl.
    rewrite bool_decide_true by done. simpl.
    rewrite !scheduled_app, scheduled_dispatch. simpl.
    by rewrite !app_nil_r.
Qed.

(** C3. An unexpected close (a close for a reason other than the local
    disconnect, or a connection error) that finds auto-reconnect enabled
    and fewer attempts made than the maximum adds exactly 1 to the
    attempt counter and schedules exactly one retry, after
    [reconnectionDelay * attempt number]; a run of such closes that stays
    within the maximum schedules one retry per attempt number, in order
    (linear backoff). The defaults are a delay of 1000 and a maximum of
    5. *)
Theorem unexpected_close_linear_backoff (s : Sys) (l : list Input) :
  Forall (fun i => unexpected_close i = true) l ->
  has_socket (this s) = true ->
  autoReconnect (this s) = true ->
  (reconnectAttempts (this s) + Z.of_nat (length l) <= maxReconnectAttempts (this s))%Z ->
  let a := reconnectAttempts (this s) in
  let d := reconnectionDelay (this s) in
  reconnectAttempts (this (steps l s)) = (a + Z.of_nat (length l))%Z /\
  scheduled (out (steps l s))
  = (scheduled (out s)
     ++ ((fun attempt => d * attempt)%Z <$> seqZ (a + 1) (Z.of_nat (length l))))%list /\
  timers (steps l s)
  = (timers s
     ++ ((fun attempt => d * attempt)%Z <$> seqZ (a + 1) (Z.of_nat (length l))))%list /\
  reconnectionDelay socketService = 1000%Z /\
  maxReconnectAttempts socketService = 5%Z.
Proof.
  intros Hl. revert s. induction Hl as [|i l Hi Hl IH]; intros s Hs Ha Hle a d.
  - rewrite seqZ_nil by done. simpl. rewrite !app_nil_r.
    repeat split; try done. subst a. lia.
  - simpl in Hle.
    destruct (unexpected_close_step s i Hi Hs Ha) as (Hn & Hsch & Htm & Hm & Hd & Ha' & Hs');
      [lia|].
    simpl. fold (steps l (exec (step i) s)).
    destruct (IH (exec (step i) s) Hs' Ha') as (IHn & IHsch & IHtm & _).
    { rewrite Hn, Hm. lia. }
    rewrite IHn, IHsch, IHtm, Hn, Hd, Hsch, Htm.
    rewrite (seqZ_cons (a + 1)) by lia.
    replace (Z.pred (Z.of_nat (S (length l)))) with (Z.of_nat (length l)) by lia.
    replace (Z.succ (a + 1)) with (a + 1 + 1)%Z by lia.
    simpl. rewrite <- !app_assoc. simpl.
    repeat split; try done. subst a. lia.
Qed.

Lemma invocations_app tr1 tr2 :
  invocations (tr1 ++ tr2) = (invocations tr1 ++ invocations tr2)%list.
Proof. apply omap_app. Qed.

(** A close that does not lead to a retry: auto-reconnect is off, the
    close is the local one, or no attempt is left. *)
Lemma on_disconnect_quiet reason (s : Sys) :
  autoReconnect (this s) && negb (String.eqb reason "io client disconnect") = false
  \/ (maxReconnectAttempts (this s) <= reconnectAttempts (this s))%Z ->
  (on_disconnect reason s).1 = Normal tt /\
  this (on_disconnect reason s).2 = this s /\
  timers (on_disconnect reason s).2 = timers s /\
  scheduled (out (on_disconnect reason s).2) = scheduled (out s) /\
  invocations (out (on_disconnect reason s).2)
  = (invocations (out s) ++ map (fun h => (h, [])) (registered (this s) Edisconnect))%list.
Proof.
  intros H. unfold on_disconnect. munfold. rewrite triggerHandlers_eq. simpl.
  destruct (autoReconnect (this s) && negb (String.eqb reason "io client disconnect")) eqn:Hc;
    simpl.
  - destruct H as [H|H]; [done|].
    rewrite attemptReconnect_eq. simpl. rewrite bool_decide_false by lia. simpl.
    rewrite !scheduled_app, !invocations_app, scheduled_dispatch, invocations_dispatch.
    simpl. by rewrite !app_nil_r.
  - rewrite !scheduled_app, !invocations_app, scheduled_dispatch, invocations_dispatch.
    simpl. by rewrite !app_nil_r.
Qed.

Lemma on_connect_error_quiet error (s : Sys) :
  autoReconnect (this s) = false
  \/ (maxReconnectAttempts (this s) <= reconnectAttempts (this s))%Z ->
  (on_connect_error error s).1 = Normal tt /\
  this (on_connect_error error s).2 = this s /\
  timers (on_connect_error error s).2 = timers s /\
  scheduled (out (on_connect_error error s).2) = scheduled (out s) /\
  invocations (out (on_connect_error error s).2)
  = (invocations (out s)
     ++ map (fun h => (h, [error])) (registered (this s) Econnect_error))%list.
Proof.
  intros H. unfold on_connect_error. munfold. rewrite triggerHandlers_eq. simpl.
  destruct (autoReconnect (this s)) eqn:Hc; simpl.
  - destruct H as [H|H]; [done|].
    rewrite attemptReconnect_eq. simpl. rewrite bool_decide_false by lia. simpl.
    rewrite !scheduled_app, !invocations_app, scheduled_dispatch, invocations_dispatch.
    simpl. by rewrite !app_nil_r.
  - rewrite !scheduled_app, !invocations_app, scheduled_dispatch, invocations_dispatch.
    simpl. by rewrite !app_nil_r.
Qed.

(** [disconnect()]: what is left of the service, and that no retry is
    scheduled by it. *)
Lemma disconnect_effect (s : Sys) :
  (disconnect s).1 = Normal tt /\
  this (disconnect s).2
  = match socket (this s) with
    | Some _ => set_reconnectAttempts 0 (set_socket None (set_autoReconnect false (this s)))
    | None => this s
    end /\
  timers (disconnect s).2 = timers s /\
  scheduled (out (disconnect s).2) = scheduled (out s).
Proof.
  unfold disconnect. munfold.
  destruct (socket (this s)) as [sk|] eqn:Hsk; simpl; [|done].
  unfold Socket_disconnect. munfold. destruct (connected sk); simpl.
  - match goal with
    | |- context [on_disconnect ?r ?S] =>
        destruct (on_disconnect_quiet r S) as (Hn & Ht & Htm & Hsch & _);
          [by left|]; destruct (on_disconnect r S) as [c s1]
    end.
    simpl in *. subst c. simpl. rewrite Ht, Htm, Hsch.
    rewrite scheduled_app. simpl. by rewrite app_nil_r.
  - rewrite scheduled_app. simpl. by rewrite app_nil_r.
Qed.

(** [connect(url)]: what is left of the service, and that no retry is
    scheduled by it. *)
Lemma connect_effect u (s : Sys) :
  (exists r, (connect u s).1 = Normal r) /\
  this (connect u s).2
  = (let t := match socket (this s) with
              | Some _ => set_reconnectAttempts 0
                            (set_socket None (set_autoReconnect false (set_url u (this s))))
              | None => set_url u (this s)
              end in
     match io_throws (u ++ namespace) with
     | Some _ => t
     | None => set_socket (Some {| address := u ++ namespace; connected := false |}) t
     end) /\
  timers (connect u s).2 = timers s /\
  scheduled (out (connect u s).2) = scheduled (out s).
Proof.
  unfold connect, io, try_catch, throw. munfold. simpl.
  destruct (socket (this s)) as [sk|] eqn:Hsk; simpl.
  - match goal with
    | |- context [disconnect ?S] =>
        destruct (disconnect_effect S) as (Hn & Ht & Htm & Hsch);
          destruct (disconnect S) as [c s1]
    end.
    simpl in *. rewrite Hsk in Ht. subst c. simpl.
    destruct (io_throws (u ++ namespace)); simpl;
      rewrite Ht, Htm, ?scheduled_app, Hsch; simpl; rewrite ?app_nil_r; eauto.
  - destruct (io_throws (u ++ namespace)); simpl;
      rewrite ?scheduled_app; simpl; rewrite ?app_nil_r; eauto.
Qed.

Lemma failure_step (s : Sys) (i : Input) :
  failure i = true ->
  gave_up (this s) ->
  gave_up (this (exec (step i) s)) /\
  scheduled (out (exec (step i) s)) = scheduled (out s) /\
  timers (exec (step i) s) `sublist_of` timers s.
Proof.
  intros Hi [Hq Hc]. unfold gave_up, isConnected in *.
  destruct i; try discriminate Hi; simpl.
  - (* the socket closes *)
    munfold. unfold has_socket.
    destruct (socket (this s)) as [sk|] eqn:Hsk; simpl; [|by rewrite Hsk].
    rewrite Hsk.
    match goal with
    | |- context [on_disconnect ?r ?S] =>
        destruct (on_disconnect_quiet r S) as (_ & Ht & Htm & Hsch & _);
          [|rewrite Ht, Htm, Hsch]
    end; simpl.
    + destruct Hq as [->|Hq]; [by left|by right].
    + done.
  - (* the socket fails to connect *)
    munfold. unfold has_socket.
    destruct (socket (this s)) as [sk|] eqn:Hsk; simpl; [|by rewrite Hsk].
    destruct (on_connect_error_quiet error s Hq) as (_ & Ht & Htm & Hsch & _).
    by rewrite Ht, Htm, Hsch, Hsk.
  - (* a retry timer fires *)
    munfold. destruct (timers s !! i) as [d|]; simpl; [|done].
    unfold timer_callback. munfold. simpl.
    match goal with
    | |- context [connect ?u ?S] =>
        destruct (connect_effect u S) as ([r Hn] & Ht & Htm & Hsch);
          destruct (connect u S) as [c s1]
    end.
    simpl in *. subst c. simpl. rewrite Ht, Htm, Hsch.
    split; [|split; [done|apply sublist_delete]].
    destruct (socket (this s)) as [sk|] eqn:Hsk,
      (io_throws (url (this s) ++ namespace));
      simpl; rewrite ?Hsk; auto.
Qed.

(** C2. Once the attempt counter has reached or passed the maximum and
    the client is not connected, every further failure (a close of the
    socket, a connection error, a pending retry timer that fires) leaves
    the client not connected and schedules no retry: the timers
    scheduled so far stay what they were and the pending ones only go
    away. Such a close or connection error is still reported to the
    handlers registered for [disconnect] and for [connect_error]. *)
Theorem no_retry_after_maximum (s : Sys) (l : list Input) reason error :
  Forall (fun i => failure i = true) l ->
  (maxReconnectAttempts (this s) <= reconnectAttempts (this s))%Z ->
  isConnected (this s) = false ->
  isConnected (this (steps l s)) = false /\
  scheduled (out (steps l s)) = scheduled (out s) /\
  timers (steps l s) `sublist_of` timers s /\
  invocations (out (exec (step (Socket_close reason)) s))
  = (invocations (out s)
     ++ if has_socket (this s)
        then map (fun h => (h, [])) (registered (this s) Edisconnect)
        else [])%list /\
  invocations (out (exec (step (Socket_connect_error error)) s))
  = (invocations (out s)
     ++ if has_socket (this s)
        then map (fun h => (h, [error])) (registered (this s) Econnect_error)
        else [])%list.
Proof.
  intros Hl Hmax Hc.
  assert (Hseq : forall s0 : Sys, gave_up (this s0) ->
            gave_up (this (steps l s0)) /\
            scheduled (out (steps l s0)) = scheduled (out s0) /\
            timers (steps l s0) `sublist_of` timers s0).
  { induction Hl as [|i l Hi Hl IH]; intros s0 Hg; simpl; [done|].
    destruct (failure_step s0 i Hi Hg) as (Hg1 & Hsch1 & Htm1).
    destruct (IH _ Hg1) as (Hg2 & Hsch2 & Htm2).
    split; [done|]. split; [congruence|]. by etrans. }
  destruct (Hseq s) as ((_ & Hc') & Hsch & Htm); [split; auto|].
  split; [done|]. split; [done|]. split; [done|].
  simpl. munfold. unfold has_socket.
  destruct (socket (this s)) as [sk|] eqn:Hsk; simpl; rewrite ?app_nil_r; try done.
  rewrite Hsk. split.
  - match goal with
    | |- context [on_disconnect ?r ?S] =>
        destruct (on_disconnect_quiet r S) as (_ & _ & _ & _ & Hinv);
          [by right|rewrite Hinv]
    end.
    done.
  - destruct (on_connect_error_quiet error s) as (_ & _ & _ & _ & Hinv);
      [by right|by rewrite Hinv].
Qed.

(** *** The attempt counter *)

Lemma on_connect_effect (s : Sys) :
  (on_connect s).1 = Normal tt /\
  this (on_connect s).2 = set_reconnectAttempts 0 (this s) /\
  timers (on_connect s).2 = timers s /\
  scheduled (out (on_connect s).2) = scheduled (out s).
Proof.
  unfold on_connect. munfold. rewrite triggerHandlers_eq. simpl.
  rewrite !scheduled_app, scheduled_dispatch. simpl. by rewrite !app_nil_r.
Qed.

Lemma attemptReconnect_socket (s : Sys) :
  socket (this (attemptReconnect s).2) = socket (this s).
Proof. rewrite attemptReconnect_eq. simpl. by case_bool_decide. Qed.

Lemma step_keeps_idle_zero (s : Sys) (i : Input) :
  idle_zero (this s) -> idle_zero (this (exec (step i) s)).
Proof.
  unfold idle_zero. intros Hz. destruct i; simpl.
  - (* connect *)
    munfold.
    destruct (connect_effect u s) as ([r Hn] & Ht & _).
    destruct (connect u s) as [c s1]. simpl in *. subst c. simpl. rewrite Ht.
    destruct (socket (this s)) as [sk|] eqn:Hsk, (io_throws (u ++ namespace));
      simpl; auto; done.
  - (* disconnect *)
    munfold. destruct (disconnect_effect s) as (_ & Ht & _). rewrite Ht.
    destruct (socket (this s)); simpl; auto.
  - unfold on. munfold. case_bool_decide; simpl; auto.
  - unfold off. munfold. destruct (handlers (this s) !! event); simpl; auto.
  - unfold getServices, request. munfold. destruct (isConnected (this s)); simpl; auto.
  - unfold getConnections, request. munfold. destruct (isConnected (this s)); simpl; auto.
  - unfold getLogs, request. munfold. destruct (isConnected (this s)); simpl; auto.
  - unfold getStats, request. munfold. destruct (isConnected (this s)); simpl; auto.
  - unfold setAutoReconnect. munfold. simpl; auto.
  - unfold configureReconnection. munfold. destruct maxAttempts, delay; simpl; auto.
  - (* the socket connects *)
    munfold. unfold has_socket.
    destruct (socket (this s)) as [sk|] eqn:Hsk; simpl; [|by rewrite Hsk].
    match goal with
    | |- context [on_connect ?S] =>
        destruct (on_connect_effect S) as (_ & Ht & _); rewrite Ht
    end.
    simpl. by rewrite Hsk.
  - (* the socket closes *)
    munfold. unfold has_socket.
    destruct (socket (this s)) as [sk|] eqn:Hsk; simpl; [|by rewrite Hsk].
    unfold on_disconnect. munfold. rewrite triggerHandlers_eq. simpl. rewrite Hsk. simpl.
    destruct (autoReconnect (this s) && negb (String.eqb reason "io client disconnect"));
      simpl; [|done].
    by rewrite attemptReconnect_socket.
  - (* the socket fails to connect *)
    munfold. unfold has_socket.
    destruct (socket (this s)) as [sk|] eqn:Hsk; simpl; [|by rewrite Hsk].
    unfold on_connect_error. munfold. rewrite triggerHandlers_eq. simpl.
    destruct (autoReconnect (this s)); simpl; [|by rewrite Hsk].
    rewrite attemptReconnect_socket. simpl. by rewrite Hsk.
  - (* a push *)
    munfold. unfold has_socket.
    destruct (socket (this s)) as [sk|] eqn:Hsk; simpl; [|by rewrite Hsk].
    unfold on_push. rewrite triggerHandlers_eq. simpl. by rewrite Hsk.
  - (* a retry timer fires *)
    munfold. destruct (timers s !! i) as [d|]; simpl; [|done].
    unfold timer_callback. munfold. simpl.
    match goal with
    | |- context [connect ?u ?S] =>
        destruct (connect_effect u S) as ([r Hn] & Ht & _);
          destruct (connect u S) as [c s1]
    end.
    simpl in *. subst c. simpl. rewrite Ht.
    destruct (socket (this s)) as [sk|] eqn:Hsk,
      (io_throws (url (this s) ++ namespace)); simpl; auto; done.
Qed.

Lemma reachable_idle_zero (w : World) (s : Sys) :
  reachable w s -> idle_zero (this s).
Proof.
  induction 1 as [|s i _ IH]; [done|]. by apply step_keeps_idle_zero.
Qed.

Lemma reachable_steps (w : World) (l : list Input) (s : Sys) :
  reachable w s -> reachable w (steps l s).
Proof.
  revert s. induction l as [|i l IH]; intros s Hr; simpl; [done|].
  apply IH. by constructor.
Qed.

(** C4. In every state the client can reach, the attempt counter is 0
    right after the [connect] event of the socket (when the client has a
    socket the event reaches its listener, and the client is then
    connected), and it is 0 right after every call of [disconnect()]. *)
Theorem attempts_reset_to_zero (w : World) (s : Sys) :
  reachable w s ->
  reconnectAttempts (this (exec on_connect s)) = 0%Z /\
  reconnectAttempts (this (exec (step Socket_connect) s)) = 0%Z /\
  isConnected (this (exec (step Socket_connect) s)) = has_socket (this s) /\
  reconnectAttempts (this (exec disconnect s)) = 0%Z /\
  reconnectAttempts (this (exec (step Call_disconnect) s)) = 0%Z.
Proof.
  intros Hr. pose proof (reachable_idle_zero w s Hr) as Hz. unfold idle_zero in Hz.
  assert (Hd : reconnectAttempts (this (exec disconnect s)) = 0%Z).
  { unfold exec. destruct (disconnect_effect s) as (_ & Ht & _). rewrite Ht.
    destruct (socket (this s)); simpl; auto. }
  split.
  { unfold exec. destruct (on_connect_effect s) as (_ & Ht & _). by rewrite Ht. }
  split; [|split; [|by split]].
  - simpl. munfold. unfold has_socket.
    destruct (socket (this s)) as [sk|] eqn:Hsk; simpl; [|auto].
    match goal with
    | |- context [on_connect ?S] =>
        destruct (on_connect_effect S) as (_ & Ht & _); by rewrite Ht
    end.
  - simpl. munfold. unfold has_socket, isConnected.
    destruct (socket (this s)) as [sk|] eqn:Hsk; simpl; [|by rewrite Hsk].
    match goal with
    | |- context [on_connect ?S] =>
        destruct (on_connect_effect S) as (_ & Ht & _); rewrite Ht
    end.
    simpl. by rewrite Hsk.
Qed.

(** *** Auto-reconnect once disabled *)

Lemma step_keeps_auto_reconnect_off (s : Sys) (i : Input) :
  not_enabling i = true ->
  autoReconnect (this s) = false ->
  autoReconnect (this (exec (step i) s)) = false /\
  scheduled (out (exec (step i) s)) = scheduled (out s) /\
  timers (exec (step i) s) `sublist_of` timers s.
Proof.
  intros Hi Ha. destruct i; simpl.
  - munfold.
    destruct (connect_effect u s) as ([r Hn] & Ht & Htm & Hsch).
    destruct (connect u s) as [c s1]. simpl in *. subst c. simpl.
    rewrite Ht, Htm, Hsch.
    by destruct (socket (this s)), (io_throws (u ++ namespace)).
  - munfold. destruct (disconnect_effect s) as (_ & Ht & Htm & Hsch).
    rewrite Ht, Htm, Hsch. by destruct (socket (this s)).
  - unfold on. munfold. by case_bool_decide.
  - unfold off. munfold. by destruct (handlers (this s) !! event).
  - unfold getServices, request. munfold.
    destruct (isConnected (this s)); simpl; rewrite scheduled_app; simpl;
      by rewrite app_nil_r.
  - unfold getConnections, request. munfold.
    destruct (isConnected (this s)); simpl; rewrite scheduled_app; simpl;
      by rewrite app_nil_r.
  - unfold getLogs, request. munfold.
    destruct (isConnected (this s)); simpl; rewrite scheduled_app; simpl;
      by rewrite app_nil_r.
  - unfold getStats, request. munfold.
    destruct (isConnected (this s)); simpl; rewrite scheduled_app; simpl;
      by rewrite app_nil_r.
  - destruct value; [discriminate Hi|]. by unfold setAutoReconnect.
  - unfold configureReconnection. munfold. by destruct maxAttempts, delay.
  - munfold. destruct (has_socket (this s)); simpl; [|done].
    match goal with
    | |- context [on_connect ?S] =>
        destruct (on_connect_effect S) as (_ & Ht & Htm & Hsch);
          rewrite Ht, Htm, Hsch
    end.
    simpl. by destruct (socket (this s)).
  - munfold. destruct (has_socket (this s)); simpl; [|done].
    match goal with
    | |- context [on_disconnect ?r ?S] =>
        destruct (on_disconnect_quiet r S) as (_ & Ht & Htm & Hsch & _);
          [|rewrite Ht, Htm, Hsch]
    end; simpl.
    + left. by destruct (socket (this s)); simpl; rewrite Ha.
    + by destruct (socket (this s)).
  - munfold. destruct (has_socket (this s)); simpl; [|done].
    destruct (on_connect_error_quiet error s) as (_ & Ht & Htm & Hsch & _);
      [by left|by rewrite Ht, Htm, Hsch].
  - munfold. destruct (has_socket (this s)); simpl; [|done].
    unfold on_push. rewrite triggerHandlers_eq. simpl.
    rewrite scheduled_app, scheduled_dispatch. by rewrite app_nil_r.
  - munfold. destruct (timers s !! i) as [d|]; simpl; [|done].
    unfold timer_callback. munfold. simpl.
    match goal with
    | |- context [connect ?u ?S] =>
        destruct (connect_effect u S) as ([r Hn] & Ht & Htm & Hsch);
          destruct (connect u S) as [c s1]
    end.
    simpl in *. subst c. simpl. rewrite Ht, Htm, Hsch.
    split; [|split; [done|apply sublist_delete]].
    by destruct (socket (this s)), (io_throws (url (this s) ++ namespace)).
Qed.

(** C1, as the code has it. [connect(address)] does not re-enable
    auto-reconnect: once it is disabled (by [disconnect()] on an open
    channel) it stays disabled through [connect] and through every other
    call and event except [setAutoReconnect(true)], and as long as it is
    disabled no close schedules a retry; [setAutoReconnect(true)]
    re-enables it. *)
Theorem auto_reconnect_stays_off_until_set (s : Sys) (u : string) (l : list Input) :
  autoReconnect (this s) = false ->
  Forall (fun i => not_enabling i = true) l ->
  autoReconnect (this (exec (connect u) s)) = false /\
  autoReconnect (this (steps l s)) = false /\
  scheduled (out (steps l s)) = scheduled (out s) /\
  timers (steps l s) `sublist_of` timers s /\
  autoReconnect (this (exec (setAutoReconnect true) (steps l s))) = true.
Proof.
  intros Ha Hl.
  split.
  { destruct (step_keeps_auto_reconnect_off s (Call_connect u) eq_refl Ha) as (H & _).
    simpl in H. munfold. by destruct (connect u s) as [[r|e] s1]. }
  assert (Hseq : autoReconnect (this (steps l s)) = false /\
                 scheduled (out (steps l s)) = scheduled (out s) /\
                 timers (steps l s) `sublist_of` timers s).
  { revert s Ha. induction Hl as [|i l Hi Hl IH]; intros s Ha; simpl; [done|].
    destruct (step_keeps_auto_reconnect_off s i Hi Ha) as (Ha1 & Hsch1 & Htm1).
    destruct (IH _ Ha1) as (Ha2 & Hsch2 & Htm2).
    split; [done|]. split; [congruence|]. by etrans. }
  destruct Hseq as (H1 & H2 & H3). by repeat split.
Qed.

(** *** The listeners and the connection methods in closed form *)

Ltac tidy :=
  unfold ret, after; simpl; rewrite <- ?app_assoc; simpl; rewrite ?app_nil_r;
  try done.

Lemma on_disconnect_eq reason (s : Sys) :
  on_disconnect reason s
  = (Normal tt,
     let wt := dispatch Edisconnect [] (registered (this s) Edisconnect) (world s) in
     let c := autoReconnect (this s)
              && negb (String.eqb reason "io client disconnect") in
     {| this := retry_this c (this s);
        world := wt.1;
        timers := timers s ++ retry_timers c (this s);
        out := out s ++ console_log (WebSocket_disconnected reason) :: wt.2
                     ++ retry_out c (this s) |}).
Proof.
  unfold on_disconnect. munfold. rewrite triggerHandlers_eq. simpl.
  unfold retry_this, retry_timers, retry_out, retrying, retry_delay.
  destruct (autoReconnect (this s) && negb (String.eqb reason "io client disconnect"));
    simpl.
  - rewrite attemptReconnect_eq. simpl. case_bool_decide; simpl; tidy.
  - tidy.
Qed.

Lemma on_connect_error_eq error (s : Sys) :
  on_connect_error error s
  = (Normal tt,
     let wt := dispatch Econnect_error [error]
                 (registered (this s) Econnect_error) (world s) in
     let c := autoReconnect (this s) in
     {| this := retry_this c (this s);
        world := wt.1;
        timers := timers s ++ retry_timers c (this s);
        out := out s ++ console_error (WebSocket_connection_error error) :: wt.2
                     ++ retry_out c (this s) |}).
Proof.
  unfold on_connect_error. munfold. rewrite triggerHandlers_eq. simpl.
  unfold retry_this, retry_timers, retry_out, retrying, retry_delay.
  destruct (autoReconnect (this s)); simpl.
  - rewrite attemptReconnect_eq. simpl. case_bool_decide; simpl; tidy.
  - tidy.
Qed.

Lemma on_connect_eq (s : Sys) :
  on_connect s
  = (Normal tt,
     let wt := dispatch Econnect [] (registered (this s) Econnect) (world s) in
     {| this := set_reconnectAttempts 0 (this s);
        world := wt.1;
        timers := timers s;
        out := out s ++ console_log WebSocket_connected :: wt.2 |}).
Proof.
  unfold on_connect. munfold. rewrite triggerHandlers_eq. simpl. tidy.
Qed.

Lemma disconnect_eq (s : Sys) :
  disconnect s
  = (Normal tt,
     match socket (this s) with
     | None => s
     | Some sk =>
         let wt := dispatch Edisconnect [] (registered (this s) Edisconnect) (world s) in
         {| this := set_reconnectAttempts 0
                      (set_socket None (set_autoReconnect false (this s)));
            world := if connected sk then wt.1 else world s;
            timers := timers s;
            out := out s ++ socket_disconnect ::
                     if connected sk
                     then console_log (WebSocket_disconnected "io client disconnect") :: wt.2
                     else [] |}
     end).
Proof.
  unfold disconnect. munfold.
  destruct (socket (this s)) as [sk|] eqn:Hsk; simpl; [|done].
  unfold Socket_disconnect. munfold. destruct (connected sk); simpl; [|done].
  rewrite on_disconnect_eq. simpl.
  unfold retry_this, retry_timers, retry_out, retrying. simpl. tidy.
Qed.

Lemma connect_eq u (s : Sys) :
  connect u s
  = (let s0 := {| this := set_url u (this s); world := world s;
                  timers := timers s; out := out s |} in
     let s1 := (disconnect s0).2 in
     let s2 :=
       match io_throws (u ++ namespace) with
       | Some e =>
           {| this := this s1; world := world s1; timers := timers s1;
              out := out s1 ++ [io_open (u ++ namespace);
                                console_error (Error_creating_socket_connection e)] |}
       | None =>
           {| this := set_socket (Some {| address := u ++ namespace;
                                          connected := false |}) (this s1);
              world := world s1; timers := timers s1;
              out := out s1 ++ [io_open (u ++ namespace)] |}
       end in
     (Normal (socket (this s2)), s2)).
Proof.
  unfold connect, io, try_catch, throw. munfold. simpl.
  rewrite !disconnect_eq. simpl.
  destruct (socket (this s)) as [sk|] eqn:Hsk; simpl;
    destruct (io_throws (u ++ namespace)); simpl; rewrite ?Hsk;
    rewrite ?disconnect_eq; simpl; rewrite ?Hsk; tidy.
Qed.

Lemma dispatch_reads_nothing {B} (f : Obs -> option B) event args hs w :
  (forall h a, f (Invoked h a) = None) ->
  (forall m, f (console_error m) = None) ->
  omap f (dispatch event args hs w).2 = [].
Proof.
  intros Hi He. revert w. induction hs as [|h hs IH]; intros w; simpl; [done|].
  destruct (call h args w) as [w1 r]. specialize (IH w1).
  destruct (dispatch event args hs w1) as [w2 tr]. simpl in *.
  rewrite Hi. destruct r; simpl; rewrite ?He; done.
Qed.

Lemma opened_app tr1 tr2 : opened (tr1 ++ tr2) = (opened tr1 + opened tr2)%nat.
Proof. unfold opened. by rewrite omap_app, length_app. Qed.

Lemma closed_app tr1 tr2 : closed (tr1 ++ tr2) = (closed tr1 + closed tr2)%nat.
Proof. unfold closed. by rewrite omap_app, length_app. Qed.

Lemma opened_dispatch event args hs w : opened (dispatch event args hs w).2 = 0%nat.
Proof. unfold opened. by rewrite dispatch_reads_nothing. Qed.

Lemma closed_dispatch event args hs w : closed (dispatch event args hs w).2 = 0%nat.
Proof. unfold closed. by rewrite dispatch_reads_nothing. Qed.


(** *** Properties of the service beyond the reconnection policy *)

Ltac step_open :=
  simpl; munfold;
  unfold on, off, getServices, getConnections, getLogs, getStats, request,
    setAutoReconnect, configureReconnection, timer_callback, on_push;
  munfold.

Ltac step_eq :=
  repeat (progress (rewrite ?connect_eq, ?disconnect_eq, ?on_connect_eq,
                      ?on_disconnect_eq, ?on_connect_error_eq,
                      ?triggerHandlers_eq; simpl)).

Lemma retry_this_fields c t :
  socket (retry_this c t) = socket t /\
  handlers (retry_this c t) = handlers t /\
  maxReconnectAttempts (retry_this c t) = maxReconnectAttempts t /\
  reconnectionDelay (retry_this c t) = reconnectionDelay t /\
  url (retry_this c t) = url t /\
  autoReconnect (retry_this c t) = autoReconnect t /\
  reconnectAttempts (retry_this c t)
  = (if retrying c t then reconnectAttempts t + 1 else reconnectAttempts t)%Z.
Proof. unfold retry_this. by destruct (retrying c t). Qed.

Lemma step_keeps_handlers (s : Sys) (i : Input) :
  touches_handlers i = false ->
  handlers (this (exec (step i) s)) = handlers (this s).
Proof.
  intros Hi. destruct i; try discriminate Hi; step_open; step_eq.
  - by destruct (socket (this s)), (io_throws (u ++ namespace)).
  - by destruct (socket (this s)).
  - by destruct (isConnected (this s)).
  - by destruct (isConnected (this s)).
  - by destruct (isConnected (this s)).
  - by destruct (isConnected (this s)).
  - done.
  - by destruct maxAttempts, delay.
  - destruct (has_socket (this s)); step_eq; [|done]. by destruct (socket (this s)).
  - destruct (has_socket (this s)); step_eq; [|done].
    rewrite (proj1 (proj2 (retry_this_fields _ _))). by destruct (socket (this s)).
  - destruct (has_socket (this s)); step_eq; [|done].
    by rewrite (proj1 (proj2 (retry_this_fields _ _))).
  - destruct (has_socket (this s)); step_eq; done.
  - destruct (timers s !! i); step_eq; [|done].
    by destruct (socket (this s)), (io_throws (url (this s) ++ namespace)).
Qed.

(** The handler table is changed by [on] and [off] only: the handlers
    stay registered through every disconnect, reconnect, socket event,
    request and timer. *)
Theorem handlers_survive_reconnects (s : Sys) (l : list Input) :
  Forall (fun i => touches_handlers i = false) l ->
  handlers (this (steps l s)) = handlers (this s).
Proof.
  intros Hl. revert s. induction Hl as [|i l Hi _ IH]; intros s; simpl; [done|].
  by rewrite IH, step_keeps_handlers.
Qed.


Lemma filter_absent (h : FnRef) (l : list FnRef) :
  h ∉ l -> filter (fun x => x ≠ h) l = l.
Proof.
  induction l as [|x l IH]; intros Hn; [done|].
  apply not_elem_of_cons in Hn as [Hx Hl].
  rewrite filter_cons_True by (intros ->; done). by rewrite IH.
Qed.

(** Registering a handler that was not registered for the event and
    removing it again leaves the list of that event, the lists of all
    other events, and everything else in the system as they were; the
    event keeps its entry in the table (with the old list, empty if there
    was none). *)
Theorem on_then_off_restores event handler (s : Sys) :
  handler ∉ registered (this s) event ->
  exec (off event handler) (exec (on event handler) s)
  = {| this := set_handlers (<[event := registered (this s) event]> (handlers (this s)))
                            (this s);
       world := world s; timers := timers s; out := out s |} /\
  registered (this (exec (off event handler) (exec (on event handler) s))) event
  = registered (this s) event.
Proof.
  intros Hn.
  assert (Heq : exec (off event handler) (exec (on event handler) s)
    = {| this := set_handlers (<[event := registered (this s) event]> (handlers (this s)))
                              (this s);
         world := world s; timers := timers s; out := out s |}).
  { unfold registered in *. unfold on, off. munfold.
    destruct (handlers (this s) !! event) as [hs|] eqn:Hhs; simpl in *.
    - rewrite lookup_alter, decide_True, Hhs by done. simpl.
      rewrite filter_app, filter_absent by done.
      rewrite (filter_cons_False _ handler []) by (intros Hc; by apply Hc).
      rewrite filter_nil, app_nil_r.
      f_equal. unfold set_handlers. simpl. f_equal.
      apply map_eq. intros e. destruct (decide (event = e)) as [->|Hne].
      + by rewrite !lookup_insert_eq.
      + by rewrite !lookup_insert_ne, lookup_alter_ne.
    - rewrite lookup_alter, decide_True, lookup_insert_eq by done. simpl.
      rewrite (filter_cons_False _ handler []) by (intros Hc; by apply Hc).
      rewrite filter_nil.
      f_equal. unfold set_handlers. simpl. f_equal.
      apply map_eq. intros e. destruct (decide (event = e)) as [->|Hne].
      + by rewrite !lookup_insert_eq.
      + by rewrite !lookup_insert_ne, lookup_alter_ne, lookup_insert_ne. }
  split; [done|]. rewrite Heq. unfold registered. simpl.
  by rewrite lookup_insert_eq.
Qed.

Lemma scheduled_retry_out c t : scheduled (retry_out c t) = retry_timers c t.
Proof.
  unfold retry_out, retry_timers, retrying.
  destruct c; simpl; [|done]. by case_bool_decide.
Qed.

Lemma opened_retry_out c t : opened (retry_out c t) = 0%nat.
Proof. unfold retry_out. destruct c; [|done]. by case_bool_decide. Qed.

Lemma closed_retry_out c t : closed (retry_out c t) = 0%nat.
Proof. unfold retry_out. destruct c; [|done]. by case_bool_decide. Qed.

Lemma invocations_retry_out c t : invocations (retry_out c t) = [].
Proof. unfold retry_out. destruct c; [|done]. by case_bool_decide. Qed.

Lemma emitted_app tr1 tr2 :
  emitted (tr1 ++ tr2) = (emitted tr1 ++ emitted tr2)%list.
Proof. apply omap_app. Qed.

Lemma emitted_dispatch event args hs w : emitted (dispatch event args hs w).2 = [].
Proof. unfold emitted. by rewrite dispatch_reads_nothing. Qed.

(** [disconnect()] leaves the client without a socket and not connected;
    it closes the socket it had once, tells the [disconnect] handlers
    exactly when that socket was connected, schedules no retry and emits
    nothing, but it cancels none of the pending retry timers; calling it
    again changes nothing at all. *)
Theorem disconnect_tears_down (s : Sys) :
  let s' := exec disconnect s in
  socket (this s') = None /\
  isConnected (this s') = false /\
  handlers (this s') = handlers (this s) /\
  timers s' = timers s /\
  scheduled (out s') = scheduled (out s) /\
  emitted (out s') = emitted (out s) /\
  closed (out s') = (closed (out s) + if has_socket (this s) then 1 else 0)%nat /\
  invocations (out s')
  = (invocations (out s)
     ++ if isConnected (this s)
        then map (fun h => (h, [])) (registered (this s) Edisconnect)
        else [])%list /\
  exec disconnect s' = s'.
Proof.
  unfold exec. rewrite !disconnect_eq. simpl.
  unfold isConnected, has_socket.
  destruct (socket (this s)) as [sk|] eqn:Hsk; simpl.
  - rewrite scheduled_app, emitted_app, closed_app, invocations_app.
    destruct (connected sk); simpl;
      rewrite ?scheduled_dispatch, ?emitted_dispatch, ?invocations_dispatch,
        ?app_nil_r;
      repeat split; try done; unfold closed; simpl;
      rewrite ?dispatch_reads_nothing; done.
  - rewrite Hsk, !app_nil_r. repeat split; try done; lia.
Qed.


(** [connect(url)] never throws. It remembers the url and closes the
    socket the client had, if any; when [io] succeeds the client holds a
    fresh socket to [url + namespace] that is not yet connected, and that
    socket is returned; when [io] throws the error is logged, [null] is
    returned and the client is left without a socket (the old one is
    closed all the same). Handlers, settings and pending timers are kept
    and no retry is scheduled. *)
Theorem connect_result u (s : Sys) :
  let r := connect u s in
  let fresh := {| address := u ++ namespace; connected := false |} in
  r.1 = Normal (socket (this r.2)) /\
  socket (this r.2)
  = match io_throws (u ++ namespace) with Some _ => None | None => Some fresh end /\
  isConnected (this r.2) = false /\
  url (this r.2) = u /\
  handlers (this r.2) = handlers (this s) /\
  maxReconnectAttempts (this r.2) = maxReconnectAttempts (this s) /\
  reconnectionDelay (this r.2) = reconnectionDelay (this s) /\
  timers r.2 = timers s /\
  scheduled (out r.2) = scheduled (out s) /\
  closed (out r.2) = (closed (out s) + if has_socket (this s) then 1 else 0)%nat /\
  opened (out r.2)
  = (opened (out s) + match io_throws (u ++ namespace) with Some _ => 0 | None => 1 end)%nat /\
  last (out r.2)
  = Some match io_throws (u ++ namespace) with
         | Some e => console_error (Error_creating_socket_connection e)
         | None => io_open (u ++ namespace)
         end.
Proof.
  intros r fresh. subst r fresh. rewrite connect_eq. simpl.
  rewrite disconnect_eq. simpl. unfold isConnected, has_socket.
  destruct (socket (this s)) as [sk|] eqn:Hsk,
    (io_throws (u ++ namespace)) as [e|] eqn:Hio; simpl;
    rewrite ?Hsk, !last_app, !scheduled_app, !closed_app, !opened_app; simpl;
    rewrite ?app_nil_r;
    repeat split; try done;
    try (destruct (connected sk); simpl;
         rewrite ?scheduled_app, ?scheduled_dispatch; simpl;
         rewrite ?app_nil_r; done);
    unfold opened, closed; simpl; rewrite ?Hio; simpl;
    try (destruct (connected sk); simpl; rewrite ?dispatch_reads_nothing by done);
    simpl; try lia.
Qed.

Lemma opened_io_open a :
  opened [io_open a] = match io_throws a with Some _ => 0%nat | None => 1%nat end.
Proof. unfold opened. simpl. by destruct (io_throws a). Qed.

(** A pending retry timer outlives [disconnect()]: when it fires
    afterwards, the client opens a new socket to the last url although it
    was disconnected on purpose. *)
Theorem timer_fires_after_disconnect (s : Sys) (i : nat) (d : Z) :
  timers s !! i = Some d ->
  io_throws (url (this s) ++ namespace) = None ->
  let s1 := exec disconnect s in
  let s2 := exec (step (Timer_fires i)) s1 in
  timers s1 !! i = Some d /\
  socket (this s1) = None /\
  socket (this s2)
  = Some {| address := url (this s) ++ namespace; connected := false |} /\
  opened (out s2) = S (opened (out s1)) /\
  timers s2 = delete i (timers s).
Proof.
  intros Hi Hio s1 s2. subst s1 s2. unfold exec at 2 3 5 6. rewrite !disconnect_eq.
  simpl. step_open.
  destruct (socket (this s)) as [sk|] eqn:Hsk; simpl; rewrite ?Hi; simpl; step_eq;
    rewrite ?Hsk, ?Hi; simpl; rewrite Hio; simpl;
    rewrite opened_app, opened_io_open, Hio, ?Hi; simpl;
    repeat split; try done; lia.
Qed.

Lemma auto_reconnect_off_run (s : Sys) (l : list Input) :
  autoReconnect (this s) = false ->
  Forall (fun i => not_enabling i = true) l ->
  autoReconnect (this (steps l s)) = false /\
  scheduled (out (steps l s)) = scheduled (out s).
Proof.
  intros Ha Hl. revert s Ha.
  induction Hl as [|i l Hi Hl IH]; intros s Ha; simpl; [done|].
  destruct (step_keeps_auto_reconnect_off s i Hi Ha) as (Ha1 & Hsch1 & _).
  destruct (IH _ Ha1) as (Ha2 & Hsch2). split; [done|congruence].
Qed.

(** When a retry timer fires while the client still holds the failed
    socket, the reconnect goes through [disconnect()]: the old socket is
    closed, the attempt counter is back at 0 and auto-reconnect is off.
    Whatever happens next, short of [setAutoReconnect(true)], no further
    retry is scheduled: the retry made by the timer is the last one. *)
Theorem retry_by_timer_is_the_last (s : Sys) (i : nat) (d : Z) (l : list Input) :
  timers s !! i = Some d ->
  has_socket (this s) = true ->
  Forall (fun i => not_enabling i = true) l ->
  let s' := exec (step (Timer_fires i)) s in
  autoReconnect (this s') = false /\
  reconnectAttempts (this s') = 0%Z /\
  closed (out s') = S (closed (out s)) /\
  timers s' = delete i (timers s) /\
  scheduled (out (steps l s')) = scheduled (out s).
Proof.
  intros Hi Hs Hl s'.
  assert (H : autoReconnect (this s') = false /\
              reconnectAttempts (this s') = 0%Z /\
              closed (out s') = S (closed (out s)) /\
              timers s' = delete i (timers s) /\
              scheduled (out s') = scheduled (out s)).
  { subst s'. step_open. rewrite Hi. simpl. step_eq.
    unfold has_socket in Hs. destruct (socket (this s)) as [sk|] eqn:Hsk; [|done].
    simpl.
    destruct (io_throws (url (this s) ++ namespace)) as [e|] eqn:Hio; simpl;
      rewrite !scheduled_app, !closed_app; simpl;
      destruct (connected sk); simpl;
      rewrite ?scheduled_dispatch, ?app_nil_r;
      repeat split; try done; unfold closed; simpl;
      rewrite ?dispatch_reads_nothing by done; simpl; lia. }
  destruct H as (Ha & Hn & Hc & Ht & Hsch).
  destruct (auto_reconnect_off_run s' l Ha Hl) as (_ & Hrun).
  repeat split; try done. congruence.
Qed.

(** After the [connect] event the backoff starts again: the next
    unexpected close, with auto-reconnect on and a positive maximum,
    makes the counter 1 and schedules one retry after the base delay,
    however many attempts had been made before. *)
Theorem backoff_restarts_after_connect (s : Sys) (i : Input) :
  unexpected_close i = true ->
  has_socket (this s) = true ->
  autoReconnect (this s) = true ->
  (0 < maxReconnectAttempts (this s))%Z ->
  let s1 := exec (step Socket_connect) s in
  let s2 := exec (step i) s1 in
  isConnected (this s1) = true /\
  reconnectAttempts (this s2) = 1%Z /\
  scheduled (out s2) = (scheduled (out s) ++ [reconnectionDelay (this s)])%list /\
  timers s2 = (timers s ++ [reconnectionDelay (this s)])%list.
Proof.
  intros Hi Hs Ha Hm s1 s2.
  assert (H1 : isConnected (this s1) = true /\
               has_socket (this s1) = true /\
               autoReconnect (this s1) = true /\
               reconnectAttempts (this s1) = 0%Z /\
               maxReconnectAttempts (this s1) = maxReconnectAttempts (this s) /\
               reconnectionDelay (this s1) = reconnectionDelay (this s) /\
               scheduled (out s1) = scheduled (out s) /\
               timers s1 = timers s).
  { subst s1. step_open. rewrite Hs. simpl. step_eq.
    unfold has_socket, isConnected in *.
    destruct (socket (this s)) as [sk|]; [|done]. simpl.
    rewrite scheduled_app. simpl. rewrite scheduled_dispatch, app_nil_r.
    by repeat split. }
  destruct H1 as (Hc & Hs1 & Ha1 & Hn1 & Hm1 & Hd1 & Hsch1 & Ht1).
  destruct (unexpected_close_step s1 i Hi Hs1 Ha1) as (Hn & Hsch & Htm & _);
    [rewrite Hn1, Hm1; lia|].
  subst s2. rewrite Hn, Hsch, Htm, Hn1, Hd1, Hsch1, Ht1.
  rewrite Z.mul_1_r. by repeat split.
Qed.

(** The "Reconnect" button of the Settings page and the connection
    toggle of the application shell both end in [disconnect()] whenever
    the service holds a socket, so either of them, used while a socket
    exists, switches auto-reconnect off and resets the attempt counter;
    without a socket they leave both as they were. Neither schedules a
    retry or cancels a pending one. *)
Theorem buttons_switch_auto_reconnect_off (s : Sys) (u : string) (c : bool) :
  let after_press (m : M unit) :=
    autoReconnect (this (exec m s))
    = autoReconnect (this s) && negb (has_socket (this s)) /\
    reconnectAttempts (this (exec m s))
    = (if has_socket (this s) then 0 else reconnectAttempts (this s))%Z /\
    scheduled (out (exec m s)) = scheduled (out s) /\
    timers (exec m s) = timers s /\
    (m s).1 = Normal tt in
  after_press (Settings_reconnectSocket u) /\
  after_press (App_toggleConnection c u) /\
  url (this (exec (Settings_reconnectSocket u) s)) = u /\
  socket (this (exec (Settings_reconnectSocket u) s))
  = match io_throws (u ++ namespace) with
    | Some _ => None
    | None => Some {| address := u ++ namespace; connected := false |}
    end.
Proof.
  intros after_press. subst after_press. simpl.
  unfold Settings_reconnectSocket, App_toggleConnection. munfold.
  destruct c; step_eq; unfold has_socket;
    destruct (socket (this s)) as [sk|] eqn:Hsk; simpl; rewrite ?Hsk; simpl;
    destruct (io_throws (u ++ namespace)) as [e|]; simpl;
    rewrite ?scheduled_app; simpl;
    try (destruct (connected sk)); simpl;
    rewrite ?scheduled_app, ?scheduled_dispatch; simpl;
    rewrite ?app_nil_r, ?andb_true_r, ?andb_false_r;
    by repeat split.
Qed.


Lemma opened_cons o tr :
  opened (o :: tr)
  = (match o with
     | io_open a => match io_throws a with Some _ => 0 | None => 1 end
     | _ => 0
     end + opened tr)%nat.
Proof. unfold opened. destruct o; simpl; try done. by destruct (io_throws addr). Qed.

Lemma closed_cons o tr :
  closed (o :: tr)
  = (match o with socket_disconnect => 1 | _ => 0 end + closed tr)%nat.
Proof. unfold closed. by destruct o. Qed.

Lemma opened_nil : opened [] = 0%nat.
Proof. done. Qed.

Lemma closed_nil : closed [] = 0%nat.
Proof. done. Qed.

Ltac count_out :=
  repeat (progress (rewrite ?opened_app, ?closed_app, ?opened_cons, ?closed_cons,
                      ?opened_nil, ?closed_nil, ?opened_dispatch, ?closed_dispatch,
                      ?opened_retry_out, ?closed_retry_out)).

Lemma step_keeps_single_channel (s : Sys) (i : Input) :
  single_channel s -> single_channel (exec (step i) s).
Proof.
  unfold single_channel, has_socket. intros Hb.
  destruct i; step_open; unfold has_socket; step_eq.
  - destruct (socket (this s)) as [sk|] eqn:Hsk; cbn [this out socket set_socket];
      destruct (io_throws (u ++ namespace)) as [e|] eqn:Hio;
      cbn [this out socket set_socket];
      try destruct (connected sk); count_out; rewrite ?Hio; simpl; rewrite ?Hsk; simpl; lia.
  - destruct (socket (this s)) as [sk|] eqn:Hsk; [|simpl; by rewrite ?Hsk].
    cbn [this out socket set_socket set_reconnectAttempts].
    destruct (connected sk); count_out; simpl; rewrite ?Hsk; simpl; lia.
  - by case_bool_decide.
  - by destruct (handlers (this s) !! event).
  - destruct (isConnected (this s)); simpl; count_out; simpl; rewrite ?Hsk; simpl; lia.
  - destruct (isConnected (this s)); simpl; count_out; simpl; rewrite ?Hsk; simpl; lia.
  - destruct (isConnected (this s)); simpl; count_out; simpl; rewrite ?Hsk; simpl; lia.
  - destruct (isConnected (this s)); simpl; count_out; simpl; rewrite ?Hsk; simpl; lia.
  - done.
  - by destruct maxAttempts, delay.
  - destruct (socket (this s)) as [sk|] eqn:Hsk; [|simpl; by rewrite ?Hsk].
    simpl. step_eq. rewrite ?Hsk. cbn [this out socket set_socket set_reconnectAttempts].
    count_out. simpl. rewrite ?Hsk. simpl. lia.
  - destruct (socket (this s)) as [sk|] eqn:Hsk; [|simpl; by rewrite ?Hsk].
    simpl. step_eq. rewrite ?Hsk. cbn [this out].
    rewrite ?(proj1 (retry_this_fields _ _)). cbn [socket set_socket].
    count_out. simpl. rewrite ?Hsk. simpl. lia.
  - destruct (socket (this s)) as [sk|] eqn:Hsk; [|simpl; by rewrite ?Hsk].
    simpl. step_eq. cbn [this out]. rewrite ?(proj1 (retry_this_fields _ _)), ?Hsk.
    count_out. simpl. rewrite ?Hsk. simpl. lia.
  - destruct (socket (this s)) as [sk|] eqn:Hsk; [|simpl; by rewrite ?Hsk].
    simpl. step_eq. unfold after. cbn [this out]. rewrite ?Hsk. count_out. simpl. rewrite ?Hsk. simpl. lia.
  - destruct (timers s !! i) as [d|]; [|done]. step_eq.
    destruct (socket (this s)) as [sk|] eqn:Hsk; cbn [this out socket set_socket];
      destruct (io_throws (url (this s) ++ namespace)) as [e|] eqn:Hio;
      cbn [this out socket set_socket];
      try destruct (connected sk); count_out; rewrite ?Hio; simpl; rewrite ?Hsk; simpl; lia.
Qed.

(** In every state the client can reach there is one socket at most:
    the sockets created by [io] and the calls of [socket.disconnect()]
    balance, but for the one socket that the client holds. *)
Theorem one_socket_at_a_time (w : World) (s : Sys) :
  reachable w s ->
  opened (out s) = (closed (out s) + if has_socket (this s) then 1 else 0)%nat.
Proof.
  induction 1 as [|s i _ IH]; [done|]. by apply step_keeps_single_channel.
Qed.


Ltac quiet_case :=
  split; [done|split; [done|left; split; [(by left) || (by right)|done]]].

Ltac retry_case :=
  split; [done|split; [done|right; by repeat split]].

Lemma step_counter_cases (s : Sys) (i : Input) :
  configures i = false ->
  maxReconnectAttempts (this (exec (step i) s)) = maxReconnectAttempts (this s) /\
  reconnectionDelay (this (exec (step i) s)) = reconnectionDelay (this s) /\
  (((reconnectAttempts (this (exec (step i) s)) = reconnectAttempts (this s)
     \/ reconnectAttempts (this (exec (step i) s)) = 0%Z) /\
    scheduled (out (exec (step i) s)) = scheduled (out s))
   \/ ((reconnectAttempts (this s) < maxReconnectAttempts (this s))%Z /\
       reconnectAttempts (this (exec (step i) s)) = (reconnectAttempts (this s) + 1)%Z /\
       scheduled (out (exec (step i) s))
       = (scheduled (out s) ++ [retry_delay (this s)])%list)).
Proof.
  intros Hi.
  destruct i; try discriminate Hi; step_open; step_eq.
  - destruct (socket (this s)) as [sk|], (io_throws (u ++ namespace)); simpl;
      rewrite ?scheduled_app; simpl;
      try destruct (connected sk); simpl;
      rewrite ?scheduled_app, ?scheduled_dispatch, ?app_nil_r; quiet_case.
  - destruct (socket (this s)) as [sk|]; simpl; [|quiet_case].
    rewrite ?scheduled_app; simpl; destruct (connected sk); simpl;
      rewrite ?scheduled_dispatch, ?app_nil_r; quiet_case.
  - case_bool_decide; simpl; quiet_case.
  - destruct (handlers (this s) !! event); simpl; quiet_case.
  - destruct (isConnected (this s)); simpl; rewrite scheduled_app; simpl;
      rewrite app_nil_r; quiet_case.
  - destruct (isConnected (this s)); simpl; rewrite scheduled_app; simpl;
      rewrite app_nil_r; quiet_case.
  - destruct (isConnected (this s)); simpl; rewrite scheduled_app; simpl;
      rewrite app_nil_r; quiet_case.
  - destruct (isConnected (this s)); simpl; rewrite scheduled_app; simpl;
      rewrite app_nil_r; quiet_case.
  - quiet_case.
  - unfold has_socket. destruct (socket (this s)) as [sk|] eqn:Hsk; simpl; [|quiet_case].
    step_eq. rewrite ?Hsk. simpl.
    rewrite scheduled_app. simpl. rewrite scheduled_dispatch, app_nil_r. quiet_case.
  - unfold has_socket. destruct (socket (this s)) as [sk|] eqn:Hsk; simpl; [|quiet_case].
    step_eq. rewrite ?Hsk. simpl.
    unfold retry_this, retry_timers, retry_out, retrying, retry_delay. simpl.
    rewrite !scheduled_app. simpl. rewrite scheduled_app, scheduled_dispatch. simpl.
    destruct (autoReconnect (this s) && negb (String.eqb reason "io client disconnect"));
      simpl; [case_bool_decide|]; simpl; rewrite ?app_nil_r;
      first [quiet_case|retry_case].
  - unfold has_socket. destruct (socket (this s)) as [sk|] eqn:Hsk; simpl; [|quiet_case].
    step_eq.
    unfold retry_this, retry_timers, retry_out, retrying, retry_delay. simpl.
    rewrite !scheduled_app. simpl. rewrite scheduled_app, scheduled_dispatch. simpl.
    destruct (autoReconnect (this s)); simpl; [case_bool_decide|]; simpl;
      rewrite ?app_nil_r; first [quiet_case|retry_case].
  - unfold has_socket. destruct (socket (this s)) as [sk|] eqn:Hsk; simpl; [|quiet_case].
    step_eq. rewrite scheduled_app, scheduled_dispatch, app_nil_r. quiet_case.
  - destruct (timers s !! i) as [d|]; simpl; [|quiet_case]. step_eq.
    destruct (socket (this s)) as [sk|], (io_throws (url (this s) ++ namespace));
      simpl; rewrite ?scheduled_app; simpl;
      try destruct (connected sk); simpl;
      rewrite ?scheduled_app, ?scheduled_dispatch, ?app_nil_r; quiet_case.
Qed.

Lemma step_within_bounds (s : Sys) (i : Input) :
  configures i = false ->
  attempts_in_range (this s) ->
  maxReconnectAttempts (this (exec (step i) s)) = maxReconnectAttempts (this s) /\
  reconnectionDelay (this (exec (step i) s)) = reconnectionDelay (this s) /\
  attempts_in_range (this (exec (step i) s)) /\
  exists ds, scheduled (out (exec (step i) s)) = (scheduled (out s) ++ ds)%list /\
             Forall (backoff_delay (this s)) ds.
Proof.
  intros Hi Hr. destruct (step_counter_cases s i Hi) as (Hm & Hd & Hc).
  split; [done|]. split; [done|].
  unfold attempts_in_range in *. rewrite Hm.
  destruct Hc as [[Ha Hsch]|(Hlt & Ha & Hsch)].
  - split; [destruct Ha as [->| ->]; lia|]. exists []. by rewrite app_nil_r.
  - split; [lia|]. exists [retry_delay (this s)]. split; [done|].
    apply Forall_singleton. exists (reconnectAttempts (this s) + 1)%Z.
    split; [lia|done].
Qed.

(** As long as the reconnection settings are not changed, a counter
    that is between 0 and the maximum stays there, and every retry that
    gets scheduled waits for the base delay times an attempt number
    between 1 and the maximum: with the defaults, one of 1000, 2000,
    3000, 4000 and 5000. *)
Theorem backoff_within_bounds (s : Sys) (l : list Input) :
  Forall (fun i => configures i = false) l ->
  attempts_in_range (this s) ->
  maxReconnectAttempts (this (steps l s)) = maxReconnectAttempts (this s) /\
  reconnectionDelay (this (steps l s)) = reconnectionDelay (this s) /\
  attempts_in_range (this (steps l s)) /\
  exists ds, scheduled (out (steps l s)) = (scheduled (out s) ++ ds)%list /\
             Forall (backoff_delay (this s)) ds.
Proof.
  intros Hl. revert s. induction Hl as [|i l Hi Hl IH]; intros s Hr; simpl.
  - repeat split; try done; try apply Hr. exists []. by rewrite app_nil_r.
  - destruct (step_within_bounds s i Hi Hr) as (Hm1 & Hd1 & Hr1 & ds1 & Hs1 & Hf1).
    destruct (IH _ Hr1) as (Hm2 & Hd2 & Hr2 & ds2 & Hs2 & Hf2).
    split; [congruence|]. split; [congruence|]. split; [done|].
    exists (ds1 ++ ds2)%list. split.
    + by rewrite Hs2, Hs1, app_assoc.
    + apply Forall_app. split; [done|].
      eapply Forall_impl; [exact Hf2|]. intros d (k & Hk & ->).
      exists k. rewrite <- Hm1, <- Hd1. by split.
Qed.


End Service.

(** *** The claims on a concrete run *)

Arguments this {Value World} s.
Arguments timers {Value World} s.
Arguments out {Value World} s.
Arguments world {Value World} s.
Arguments Call_connect {Value} u.
Arguments Call_disconnect {Value}.
Arguments Call_on {Value} event handler.
Arguments Call_setAutoReconnect {Value} value.
Arguments Socket_connect {Value}.
Arguments Socket_close {Value} reason.
Arguments Socket_connect_error {Value} error.
Arguments Socket_push {Value} event payload.
Arguments Timer_fires {Value} i.
Arguments scheduled {Value} tr.
Arguments invocations {Value} tr.
Arguments Invoked {Value} h args.
Arguments console_error {Value} m.
Arguments Error_in_handler {Value} event error.

Local Abbreviation run := (steps nat (list nat) example_call example_io).
Local Abbreviation start := (initial nat (list nat) []).

(** Three handlers of [log], the second of which throws: all three run,
    in the order of their registration, and the exception is logged. *)
Example dispatch_past_a_throwing_handler :
  let s := run [Call_on Elog 1; Call_on Elog 2; Call_on Elog 3;
                Call_connect "http://localhost:3000"; Socket_connect] start in
  let s' := run [Socket_push Elog 7] s in
  world s' = [1; 2; 3] /\
  drop (length (out s)) (out s')
  = [Invoked 1 [7]; Invoked 2 [7];
     console_error (Error_in_handler Elog 99); Invoked 3 [7]].
Proof. vm_compute. by split. Qed.

(** C1, counterexample. [disconnect()] on an open channel, then
    [connect(address)]: auto-reconnect is still off, and the unexpected
    close that follows, with all five attempts left, schedules no
    retry. *)
Lemma connect_does_not_reenable_auto_reconnect :
  let s := run [Call_connect "http://localhost:3000"; Socket_connect;
                Call_disconnect;
                Call_connect "http://localhost:3000"; Socket_connect] start in
  let s' := run [Socket_close "transport close"] s in
  autoReconnect (this s) = false /\
  (reconnectAttempts (this s) < maxReconnectAttempts (this s))%Z /\
  isConnected (this s) = true /\
  scheduled (out s') = [] /\
  timers s' = [] /\
  reconnectAttempts (this s') = reconnectAttempts (this s).
Proof. vm_compute. by repeat split. Qed.

(** C1 on a run: after [disconnect()], a [connect], the socket's
    [connect] event, a close and a connection error. *)
Lemma auto_reconnect_stays_off_until_set_witness :
  let s := run [Call_connect "http://localhost:3000"; Socket_connect;
                Call_disconnect] start in
  let l := [Call_connect "http://localhost:3000"; Socket_connect;
            Socket_close "transport close"; Socket_connect_error 7] in
  autoReconnect (this s) = false /\
  Forall (fun i => not_enabling nat i = true) l /\
  autoReconnect (this (exec nat (list nat)
                         (connect nat (list nat) example_call example_io
                                  "http://localhost:3000") s)) = false /\
  autoReconnect (this (run l s)) = false /\
  scheduled (out (run l s)) = scheduled (out s) /\
  timers (run l s) `sublist_of` timers s /\
  autoReconnect (this (exec nat (list nat) (setAutoReconnect nat (list nat) true)
                         (run l s))) = true.
Proof.
  intros s l.
  assert (Ha : autoReconnect (this s) = false) by (vm_compute; reflexivity).
  assert (Hl : Forall (fun i => not_enabling nat i = true) l)
    by (repeat constructor).
  exact (conj Ha (conj Hl
    (auto_reconnect_stays_off_until_set nat (list nat) example_call example_io
       s "http://localhost:3000" l Ha Hl))).
Defined.

(** C2 on a run: five connection errors use up the five attempts; two
    handlers listen to [connect_error]. *)
Lemma no_retry_after_maximum_witness :
  let s := run [Call_on Econnect_error 1; Call_on Econnect_error 2;
                Call_connect "http://localhost:3000";
                Socket_connect_error 7; Socket_connect_error 7;
                Socket_connect_error 7; Socket_connect_error 7;
                Socket_connect_error 7] start in
  let l := [Socket_connect_error 7; Socket_close "transport close";
            Timer_fires 0; Socket_connect_error 7] in
  Forall (fun i => failure nat i = true) l /\
  (maxReconnectAttempts (this s) <= reconnectAttempts (this s))%Z /\
  isConnected (this s) = false /\
  isConnected (this (run l s)) = false /\
  scheduled (out (run l s)) = scheduled (out s) /\
  timers (run l s) `sublist_of` timers s /\
  invocations (out (run [Socket_close "transport close"] s))
  = (invocations (out s)
     ++ if has_socket (this s)
        then map (fun h => (h, [])) (registered (this s) Edisconnect)
        else [])%list /\
  invocations (out (run [Socket_connect_error 7] s))
  = (invocations (out s)
     ++ if has_socket (this s)
        then map (fun h => (h, [7])) (registered (this s) Econnect_error)
        else [])%list.
Proof.
  intros s l.
  assert (Hl : Forall (fun i => failure nat i = true) l) by (repeat constructor).
  assert (Hm : (maxReconnectAttempts (this s) <= reconnectAttempts (this s))%Z)
    by (vm_compute; discriminate).
  assert (Hc : isConnected (this s) = false) by (vm_compute; reflexivity).
  exact (conj Hl (conj Hm (conj Hc
    (no_retry_after_maximum nat (list nat) example_call example_io
       s l "transport close" 7 Hl Hm Hc)))).
Defined.

(** C3 on a run: five unexpected closes in a row from a connected
    client with the default settings. *)
Lemma unexpected_close_linear_backoff_witness :
  let s := run [Call_connect "http://localhost:3000"; Socket_connect] start in
  let l := [Socket_close "transport close"; Socket_connect_error 7;
            Socket_connect_error 7; Socket_close "ping timeout";
            Socket_connect_error 7] in
  Forall (fun i => unexpected_close nat i = true) l /\
  has_socket (this s) = true /\
  autoReconnect (this s) = true /\
  (reconnectAttempts (this s) + Z.of_nat (length l) <= maxReconnectAttempts (this s))%Z /\
  reconnectAttempts (this (run l s)) = 5%Z /\
  scheduled (out (run l s)) = [1000; 2000; 3000; 4000; 5000]%Z /\
  timers (run l s) = [1000; 2000; 3000; 4000; 5000]%Z /\
  reconnectionDelay socketService = 1000%Z /\
  maxReconnectAttempts socketService = 5%Z.
Proof.
  intros s l.
  assert (Hl : Forall (fun i => unexpected_close nat i = true) l)
    by (repeat constructor).
  assert (Hs : has_socket (this s) = true) by (vm_compute; reflexivity).
  assert (Ha : autoReconnect (this s) = true) by (vm_compute; reflexivity).
  assert (Hm : (reconnectAttempts (this s) + Z.of_nat (length l)
                <= maxReconnectAttempts (this s))%Z)
    by (vm_compute; discriminate).
  exact (conj Hl (conj Hs (conj Ha (conj Hm
    (unexpected_close_linear_backoff nat (list nat) example_call example_io
       s l Hl Hs Ha Hm))))).
Defined.

(** C4 on a run: two connection errors have brought the counter to 2. *)
Lemma attempts_reset_to_zero_witness :
  let s := run [Call_connect "http://localhost:3000";
                Socket_connect_error 7; Socket_connect_error 7] start in
  reachable nat (list nat) example_call example_io [] s /\
  reconnectAttempts (this s) = 2%Z /\
  reconnectAttempts (this (exec nat (list nat)
                             (on_connect nat (list nat) example_call) s)) = 0%Z /\
  reconnectAttempts (this (run [Socket_connect] s)) = 0%Z /\
  isConnected (this (run [Socket_connect] s)) = has_socket (this s) /\
  reconnectAttempts (this (exec nat (list nat)
                             (disconnect nat (list nat) example_call) s)) = 0%Z /\
  reconnectAttempts (this (run [Call_disconnect] s)) = 0%Z.
Proof.
  intros s.
  assert (Hr : reachable nat (list nat) example_call example_io [] s)
    by (apply reachable_steps; constructor).
  assert (H2 : reconnectAttempts (this s) = 2%Z) by (vm_compute; reflexivity).
  exact (conj Hr (conj H2
    (attempts_reset_to_zero nat (list nat) example_call example_io [] s Hr))).
Defined.

(** *** Further properties on concrete runs *)

Arguments Call_off {Value} event handler.
Arguments Call_getServices {Value}.
Arguments Call_getStats {Value}.
Arguments Call_configureReconnection {Value} maxAttempts delay.

(** Handlers registered before a disconnect and two reconnects. *)
Lemma handlers_survive_reconnects_witness :
  let s := run [Call_on Elog 1; Call_on Estats 2;
                Call_connect "http://localhost:3000"; Socket_connect] start in
  let l := [Call_disconnect; Call_connect "http://localhost:3000";
            Socket_connect_error 7; Timer_fires 0; Call_getStats] in
  Forall (fun i => touches_handlers nat i = false) l /\
  handlers (this s) !! Elog = Some [1] /\
  handlers (this (run l s)) = handlers (this s).
Proof.
  intros s l.
  assert (Hl : Forall (fun i => touches_handlers nat i = false) l)
    by (repeat constructor).
  assert (H1 : handlers (this s) !! Elog = Some [1]) by (vm_compute; reflexivity).
  exact (conj Hl (conj H1
    (handlers_survive_reconnects nat (list nat) example_call example_io s l Hl))).
Defined.

(** A handler that comes and goes beside two that stay. *)
Lemma on_then_off_restores_witness :
  let s := run [Call_on Elog 1; Call_on Elog 2] start in
  (3 ∉ registered (this s) Elog) /\
  exec nat (list nat) (off nat (list nat) Elog 3)
    (exec nat (list nat) (on nat (list nat) Elog 3) s)
  = {| this := set_handlers (<[Elog := registered (this s) Elog]> (handlers (this s)))
                            (this s);
       world := world s; timers := timers s; out := out s |} /\
  registered (this (exec nat (list nat) (off nat (list nat) Elog 3)
                      (exec nat (list nat) (on nat (list nat) Elog 3) s))) Elog
  = registered (this s) Elog.
Proof.
  intros s.
  assert (Hn : 3 ∉ registered (this s) Elog)
    by (apply (bool_decide_unpack _); vm_compute; exact I).
  exact (conj Hn
    (on_then_off_restores nat (list nat) Elog 3 s Hn)).
Defined.

(** A retry is pending when the user disconnects. *)
Lemma timer_fires_after_disconnect_witness :
  let s := run [Call_connect "http://localhost:3000"; Socket_connect;
                Socket_close "transport close"] start in
  let s1 := exec nat (list nat) (disconnect nat (list nat) example_call) s in
  let s2 := run [Timer_fires 0] s1 in
  timers s !! 0%nat = Some 1000%Z /\
  example_io (url (this s) ++ namespace) = None /\
  timers s1 !! 0%nat = Some 1000%Z /\
  socket (this s1) = None /\
  socket (this s2)
  = Some {| address := url (this s) ++ namespace; connected := false |} /\
  opened nat example_io (out s2) = S (opened nat example_io (out s1)) /\
  timers s2 = delete 0%nat (timers s).
Proof.
  intros s s1 s2.
  assert (Hi : timers s !! 0%nat = Some 1000%Z) by (vm_compute; reflexivity).
  assert (Hio : example_io (url (this s) ++ namespace) = None) by reflexivity.
  exact (conj Hi (conj Hio
    (timer_fires_after_disconnect nat (list nat) example_call example_io
       s 0%nat 1000%Z Hi Hio))).
Defined.

(** The socket closes, the retry timer fires, the retried connection
    fails twice. *)
Lemma retry_by_timer_is_the_last_witness :
  let s := run [Call_connect "http://localhost:3000"; Socket_connect;
                Socket_close "transport close"] start in
  let l := [Socket_connect_error 7; Socket_connect_error 7] in
  let s' := run [Timer_fires 0] s in
  timers s !! 0%nat = Some 1000%Z /\
  has_socket (this s) = true /\
  Forall (fun i => not_enabling nat i = true) l /\
  autoReconnect (this s) = true /\
  autoReconnect (this s') = false /\
  reconnectAttempts (this s') = 0%Z /\
  closed nat (out s') = S (closed nat (out s)) /\
  timers s' = delete 0%nat (timers s) /\
  scheduled (out (run l s')) = scheduled (out s).
Proof.
  intros s l s'.
  assert (Hi : timers s !! 0%nat = Some 1000%Z) by (vm_compute; reflexivity).
  assert (Hs : has_socket (this s) = true) by (vm_compute; reflexivity).
  assert (Hl : Forall (fun i => not_enabling nat i = true) l) by (repeat constructor).
  assert (Ha : autoReconnect (this s) = true) by (vm_compute; reflexivity).
  exact (conj Hi (conj Hs (conj Hl (conj Ha
    (retry_by_timer_is_the_last nat (list nat) example_call example_io
       s 0%nat 1000%Z l Hi Hs Hl))))).
Defined.

(** Three failed attempts, then the connection comes back and is lost
    again. *)
Lemma backoff_restarts_after_connect_witness :
  let s := run [Call_connect "http://localhost:3000";
                Socket_connect_error 7; Socket_connect_error 7;
                Socket_connect_error 7] start in
  let i := Socket_close "ping timeout" in
  let s1 := run [Socket_connect] s in
  let s2 := run [i] s1 in
  unexpected_close nat i = true /\
  has_socket (this s) = true /\
  autoReconnect (this s) = true /\
  (0 < maxReconnectAttempts (this s))%Z /\
  reconnectAttempts (this s) = 3%Z /\
  isConnected (this s1) = true /\
  reconnectAttempts (this s2) = 1%Z /\
  scheduled (out s2) = (scheduled (out s) ++ [reconnectionDelay (this s)])%list /\
  timers s2 = (timers s ++ [reconnectionDelay (this s)])%list.
Proof.
  intros s i s1 s2.
  assert (Hi : unexpected_close nat i = true) by reflexivity.
  assert (Hs : has_socket (this s) = true) by (vm_compute; reflexivity).
  assert (Ha : autoReconnect (this s) = true) by (vm_compute; reflexivity).
  assert (Hm : (0 < maxReconnectAttempts (this s))%Z) by (vm_compute; reflexivity).
  assert (H3 : reconnectAttempts (this s) = 3%Z) by (vm_compute; reflexivity).
  exact (conj Hi (conj Hs (conj Ha (conj Hm (conj H3
    (backoff_restarts_after_connect nat (list nat) example_call example_io
       s i Hi Hs Ha Hm)))))).
Defined.

(** A run with a connect, a retry by timer, a second connect and a
    disconnect. *)
Lemma one_socket_at_a_time_witness :
  let s := run [Call_connect "http://localhost:3000"; Socket_connect;
                Socket_close "transport close"; Timer_fires 0;
                Call_connect "http://localhost:3001"; Call_disconnect] start in
  reachable nat (list nat) example_call example_io [] s /\
  opened nat example_io (out s) = 3%nat /\
  opened nat example_io (out s)
  = (closed nat (out s) + if has_socket (this s) then 1 else 0)%nat.
Proof.
  intros s.
  assert (Hr : reachable nat (list nat) example_call example_io [] s)
    by (apply reachable_steps; constructor).
  assert (H3 : opened nat example_io (out s) = 3%nat) by (vm_compute; reflexivity).
  exact (conj Hr (conj H3
    (one_socket_at_a_time nat (list nat) example_call example_io [] s Hr))).
Defined.

(** The default settings, through failures, retries and a reconnect. *)
Lemma backoff_within_bounds_witness :
  let l := [Call_connect "http://localhost:3000";
            Socket_connect_error 7; Socket_connect_error 7; Socket_connect;
            Socket_close "transport close"; Timer_fires 1;
            Socket_connect_error 7] in
  Forall (fun i => configures nat i = false) l /\
  attempts_in_range (this start) /\
  scheduled (out (run l start)) = [1000; 2000; 1000]%Z /\
  maxReconnectAttempts (this (run l start)) = maxReconnectAttempts (this start) /\
  reconnectionDelay (this (run l start)) = reconnectionDelay (this start) /\
  attempts_in_range (this (run l start)) /\
  exists ds, scheduled (out (run l start)) = (scheduled (out start) ++ ds)%list /\
             Forall (backoff_delay (this start)) ds.
Proof.
  intros l.
  assert (Hl : Forall (fun i => configures nat i = false) l) by (repeat constructor).
  assert (Hr : attempts_in_range (this start)) by (vm_compute; split; discriminate).
  assert (H3 : scheduled (out (run l start)) = [1000; 2000; 1000]%Z)
    by (vm_compute; reflexivity).
  exact (conj Hl (conj Hr (conj H3
    (backoff_within_bounds nat (list nat) example_call example_io start l Hl Hr)))).
Defined.


End SocketService.

(** ** The merge functions of the pages *)

Example slice_front : slice 0 2 [1; 2; 3] = [1; 2].
Proof. reflexivity. Qed.

Example slice_negative_end : slice 0 (-1) [1; 2; 3] = [1; 2].
Proof. reflexivity. Qed.

Example includes_lowered :
  includes (toLowerCase "UserService.GetUser") "getuser" = true.
Proof. reflexivity. Qed.

Example findIndex_absent : findIndex (Nat.eqb 4) [1; 2; 3] = (-1)%Z.
Proof. reflexivity. Qed.

(** With a limit of 0 the cut counts from the end, and a push leaves the
    stored sequence as long as it was. *)
Example handleLogUpdate_limit_0 :
  let filters := {| LogFilter.levels := LogFilter.levels Logs.defaultFilters;
                    LogFilter.service := None;
                    LogFilter.searchText := "";
                    LogFilter.limit := 0 |} in
  length (Logs.handleLogUpdate filters (numbered_log 3)
            (numbered_log <$> [2; 1; 0]%nat)) = 3%nat.
Proof. reflexivity. Qed.

Lemma findIndex_lower {A} (p : A -> bool) (l : list A) :
  (-1 <= findIndex p l)%Z.
Proof.
  induction l as [|x l IH]; simpl; [lia|].
  destruct (p x); [lia|]. destruct (Z.ltb_spec (findIndex p l) 0); lia.
Qed.

Lemma findIndex_none {A} (p : A -> bool) (l : list A) :
  Forall (fun x => p x = false) l -> findIndex p l = (-1)%Z.
Proof.
  induction 1 as [|x l Hx _ IH]; simpl; [done|].
  rewrite Hx, IH. done.
Qed.

Lemma findIndex_first {A} (p : A -> bool) (l : list A) (i : nat) (c : A) :
  l !! i = Some c -> p c = true ->
  (forall j y, (j < i)%nat -> l !! j = Some y -> p y = false) ->
  findIndex p l = Z.of_nat i.
Proof.
  revert i. induction l as [|x l IH]; intros i Hi Hp Hbefore; [done|].
  destruct i as [|i]; simpl in *.
  - injection Hi as ->. by rewrite Hp.
  - rewrite (Hbefore 0%nat x) by (simpl; lia || done).
    rewrite (IH i Hi Hp).
    + destruct (Z.ltb_spec (Z.of_nat i) 0); lia.
    + intros j y Hj Hy. apply (Hbefore (S j) y); [lia|done].
Qed.

(** In a list without duplicate ids, the record with a given id is the
    first (and only) one that [findIndex] can meet. *)
Lemma findIndex_id (connection c : GrpcConnection.t)
    (prev : list GrpcConnection.t) (i : nat) :
  NoDup (GrpcConnection.id <$> prev) ->
  prev !! i = Some c ->
  GrpcConnection.id c = GrpcConnection.id connection ->
  findIndex (fun c => String.eqb (GrpcConnection.id c) (GrpcConnection.id connection)) prev
  = Z.of_nat i.
Proof.
  intros Hnd Hi Hid. apply (findIndex_first _ _ i c Hi).
  - by apply String.eqb_eq.
  - intros j y Hj Hy. apply String.eqb_neq. intros Heq.
    assert (j = i); [|lia].
    apply (NoDup_lookup (GrpcConnection.id <$> prev) j i (GrpcConnection.id connection));
      [done| |].
    + by rewrite list_lookup_fmap, Hy, <- Heq.
    + by rewrite list_lookup_fmap, Hi, <- Hid.
Qed.

Lemma upsert_keeps_ids_distinct (connection : GrpcConnection.t)
    (prev : list GrpcConnection.t) :
  NoDup (GrpcConnection.id <$> prev) ->
  NoDup (GrpcConnection.id <$> Connections.handleConnectionUpdate connection prev).
Proof.
  intros Hnd. unfold Connections.handleConnectionUpdate.
  destruct (decide (GrpcConnection.id connection ∈ GrpcConnection.id <$> prev)) as [Hin|Hout].
  - apply list_elem_of_fmap in Hin as (c & Hid & Hc).
    apply list_elem_of_lookup in Hc as [i Hi].
    rewrite (findIndex_id connection c prev i Hnd Hi) by done.
    destruct (Z.leb_spec 0 (Z.of_nat i)); [|lia].
    rewrite Nat2Z.id, list_fmap_insert.
    rewrite list_insert_id; [done|].
    by rewrite list_lookup_fmap, Hi, Hid.
  - rewrite findIndex_none.
    + simpl. rewrite fmap_app. apply NoDup_app. split; [done|]. split.
      * intros x Hx Hx'. apply list_elem_of_singleton in Hx'. by subst.
      * apply NoDup_singleton.
    + apply Forall_forall. intros y Hy. apply String.eqb_neq. intros Heq.
      apply Hout. rewrite <- Heq. by apply list_elem_of_fmap_2.
Qed.

(** C6. On a connections list without duplicate ids, an upsert of a
    record whose id is not in the list puts it at the end; an upsert of
    a record whose id is in the list replaces the record of that id where
    it stands; and the list has no duplicate ids afterwards, nor after
    any sequence of upserts. *)
Theorem upsert_appends_or_replaces (connection : GrpcConnection.t)
    (prev updates : list GrpcConnection.t) :
  NoDup (GrpcConnection.id <$> prev) ->
  (GrpcConnection.id connection ∉ GrpcConnection.id <$> prev ->
   Connections.handleConnectionUpdate connection prev = (prev ++ [connection])%list) /\
  (forall i c, prev !! i = Some c ->
     GrpcConnection.id c = GrpcConnection.id connection ->
     Connections.handleConnectionUpdate connection prev = <[i := connection]> prev) /\
  NoDup (GrpcConnection.id <$> Connections.handleConnectionUpdate connection prev) /\
  NoDup (GrpcConnection.id <$>
           foldl (fun l c => Connections.handleConnectionUpdate c l) prev updates).
Proof.
  intros Hnd. split; [|split; [|split]].
  - intros Hout. unfold Connections.handleConnectionUpdate.
    rewrite findIndex_none; [done|].
    apply Forall_forall. intros y Hy. apply String.eqb_neq. intros Heq.
    apply Hout. rewrite <- Heq. by apply list_elem_of_fmap_2.
  - intros i c Hi Hid. unfold Connections.handleConnectionUpdate.
    rewrite (findIndex_id connection c prev i Hnd Hi Hid).
    destruct (Z.leb_spec 0 (Z.of_nat i)); [|lia].
    by rewrite Nat2Z.id.
  - by apply upsert_keeps_ids_distinct.
  - revert prev Hnd. induction updates as [|c updates IH]; intros prev Hnd; simpl; [done|].
    apply IH. by apply upsert_keeps_ids_distinct.
Qed.

Lemma slice_0_take {A} (k : Z) (l : list A) :
  (0 <= k)%Z -> slice 0 k l = take (Z.to_nat k) l.
Proof.
  intros Hk. unfold slice. simpl.
  destruct (Z.ltb_spec k 0); [lia|].
  rewrite (Z.min_l 0) by lia. rewrite Z.sub_0_r.
  change (drop (Z.to_nat 0) l) with l.
  destruct (Z.le_ge_cases k (Z.of_nat (length l))).
  - by rewrite Z.min_l.
  - rewrite Z.min_r by lia. rewrite Nat2Z.id.
    rewrite take_ge by lia. by rewrite take_ge by lia.
Qed.

Lemma handleLogUpdate_matching (filters : LogFilter.t) (log : LogEntry.t)
    (prev : list LogEntry.t) :
  (1 <= LogFilter.limit filters)%Z ->
  Logs.matches filters log = true ->
  Logs.handleLogUpdate filters log prev
  = take (Z.to_nat (LogFilter.limit filters)) (log :: prev).
Proof.
  intros Hl Hm. unfold Logs.handleLogUpdate. rewrite Hm.
  rewrite slice_0_take by lia.
  replace (Z.to_nat (LogFilter.limit filters))
    with (S (Z.to_nat (LogFilter.limit filters - 1))) by lia.
  done.
Qed.

Lemma matches_defaultFilters (log : LogEntry.t) :
  Logs.matches Logs.defaultFilters log = true.
Proof.
  unfold Logs.matches. simpl.
  rewrite bool_decide_true; [done|].
  destruct (LogEntry.level log); set_solver.
Qed.

(** A run of pushes that all match the filters, onto a stored sequence
    within the limit: the pushed entries, newest first, before the
    stored ones, cut at the limit. *)
Lemma run_pushes (f : LogFilter.t) (prev pushes : list LogEntry.t) :
  (1 <= LogFilter.limit f)%Z ->
  Forall (fun log => Logs.matches f log = true) pushes ->
  (length prev <= Z.to_nat (LogFilter.limit f))%nat ->
  Logs.run (Logs.push <$> pushes) {| Logs.logs := prev; Logs.filters := f |}
  = {| Logs.logs := take (Z.to_nat (LogFilter.limit f)) (reverse pushes ++ prev);
       Logs.filters := f |}.
Proof.
  intros Hl Hm Hp. induction pushes as [|p pushes IH] using rev_ind.
  - simpl. by rewrite take_ge.
  - apply Forall_app in Hm as [Hm Hmp]. apply Forall_inv in Hmp.
    unfold Logs.run in *. rewrite fmap_app, foldl_app, IH by done. simpl.
    rewrite handleLogUpdate_matching by done.
    rewrite reverse_snoc. simpl.
    replace (Z.to_nat (LogFilter.limit f))
      with (S (Z.to_nat (LogFilter.limit f - 1))) by lia.
    simpl. rewrite take_take. f_equal. f_equal. f_equal. lia.
Qed.

(** C7. A pushed entry that the filters admit is put in front of the
    stored sequence, which is cut so that, for a limit of at least 1,
    the result is never longer than the limit, whatever the length of
    the stored sequence; the Dashboard keeps at most 5 in the same way.
    From the empty sequence, pushes that the filters admit leave the
    most recent ones, newest first, up to the limit: with a limit of 50
    (the default, whose filters admit every entry), 60 pushes leave
    exactly 50 entries, the last 50 pushed, newest first. *)
Theorem log_push_within_limit (filters : LogFilter.t) (log : LogEntry.t)
    (prev pushes : list LogEntry.t) :
  (1 <= LogFilter.limit filters)%Z ->
  Logs.matches filters log = true ->
  Forall (fun l => Logs.matches filters l = true) pushes ->
  let stored :=
    Logs.logs (Logs.run (Logs.push <$> pushes)
                 {| Logs.logs := []; Logs.filters := filters |}) in
  (Z.of_nat (length (Logs.handleLogUpdate filters log prev))
   <= LogFilter.limit filters)%Z /\
  Logs.handleLogUpdate filters log prev
  = log :: take (Z.to_nat (LogFilter.limit filters - 1)) prev /\
  (length (Dashboard.handleLogUpdate log prev) <= 5)%nat /\
  Dashboard.handleLogUpdate log prev = take 5 (log :: prev) /\
  stored = take (Z.to_nat (LogFilter.limit filters)) (reverse pushes) /\
  (LogFilter.limit filters = 50%Z -> length pushes = 60%nat ->
   length stored = 50%nat /\ stored = reverse (drop 10 pushes)) /\
  Logs.initial = {| Logs.logs := []; Logs.filters := Logs.defaultFilters |} /\
  LogFilter.limit Logs.defaultFilters = 50%Z /\
  (forall l, Logs.matches Logs.defaultFilters l = true).
Proof.
  intros Hl Hm Hall stored.
  assert (Hd : Dashboard.handleLogUpdate log prev = take 5 (log :: prev)).
  { unfold Dashboard.handleLogUpdate. by rewrite slice_0_take. }
  assert (Hrun : stored = take (Z.to_nat (LogFilter.limit filters)) (reverse pushes)).
  { unfold stored. rewrite run_pushes; [|done|done|simpl; lia].
    simpl. by rewrite app_nil_r. }
  split.
  { rewrite handleLogUpdate_matching by done. rewrite length_take. lia. }
  split.
  { unfold Logs.handleLogUpdate. rewrite Hm. by rewrite slice_0_take by lia. }
  split; [rewrite Hd, length_take; lia|].
  split; [done|]. split; [done|]. split.
  { intros H50 H60. rewrite Hrun, H50.
    change (Z.to_nat 50) with 50%nat. rewrite take_reverse, H60.
    split; [|done]. rewrite length_reverse, length_drop. lia. }
  split; [done|]. split; [done|]. apply matches_defaultFilters.
Qed.

(** C6 on a list of two connections. *)
Lemma upsert_appends_or_replaces_witness :
  let prev := [sample_connection "a" GrpcConnection.connected;
               sample_connection "b" GrpcConnection.connected] in
  let connection := sample_connection "a" GrpcConnection.error in
  let updates := [sample_connection "c" GrpcConnection.connected;
                  sample_connection "b" GrpcConnection.disconnected] in
  NoDup (GrpcConnection.id <$> prev) /\
  Connections.handleConnectionUpdate connection prev
  = [connection; sample_connection "b" GrpcConnection.connected] /\
  (GrpcConnection.id connection ∉ GrpcConnection.id <$> prev ->
   Connections.handleConnectionUpdate connection prev = (prev ++ [connection])%list) /\
  (forall i c, prev !! i = Some c ->
     GrpcConnection.id c = GrpcConnection.id connection ->
     Connections.handleConnectionUpdate connection prev = <[i := connection]> prev) /\
  NoDup (GrpcConnection.id <$> Connections.handleConnectionUpdate connection prev) /\
  NoDup (GrpcConnection.id <$>
           foldl (fun l c => Connections.handleConnectionUpdate c l) prev updates).
Proof.
  intros prev connection updates.
  assert (Hnd : NoDup (GrpcConnection.id <$> prev))
    by (apply (bool_decide_unpack _); vm_compute; exact I).
  exact (conj Hnd (conj eq_refl
    (upsert_appends_or_replaces connection prev updates Hnd))).
Defined.

(** C7 on 60 distinct entries, and on a push onto 70 stored entries. *)
Lemma log_push_within_limit_witness :
  let filters := Logs.defaultFilters in
  let pushes := numbered_log <$> seq 0 60 in
  let log := numbered_log 60 in
  let prev := numbered_log <$> seq 0 70 in
  let stored :=
    Logs.logs (Logs.run (Logs.push <$> pushes)
                 {| Logs.logs := []; Logs.filters := filters |}) in
  (1 <= LogFilter.limit filters)%Z /\
  Logs.matches filters log = true /\
  Forall (fun l => Logs.matches filters l = true) pushes /\
  length prev = 70%nat /\
  length (Logs.handleLogUpdate filters log prev) = 50%nat /\
  (Z.of_nat (length (Logs.handleLogUpdate filters log prev))
   <= LogFilter.limit filters)%Z /\
  Logs.handleLogUpdate filters log prev
  = log :: take (Z.to_nat (LogFilter.limit filters - 1)) prev /\
  (length (Dashboard.handleLogUpdate log prev) <= 5)%nat /\
  Dashboard.handleLogUpdate log prev = take 5 (log :: prev) /\
  stored = take (Z.to_nat (LogFilter.limit filters)) (reverse pushes) /\
  (LogFilter.limit filters = 50%Z -> length pushes = 60%nat ->
   length stored = 50%nat /\ stored = reverse (drop 10 pushes)) /\
  Logs.initial = {| Logs.logs := []; Logs.filters := Logs.defaultFilters |} /\
  LogFilter.limit Logs.defaultFilters = 50%Z /\
  (forall l, Logs.matches Logs.defaultFilters l = true).
Proof.
  intros filters pushes log prev stored.
  assert (Hl : (1 <= LogFilter.limit filters)%Z) by (vm_compute; discriminate).
  assert (Hm : Logs.matches filters log = true) by (vm_compute; reflexivity).
  assert (Hall : Forall (fun l => Logs.matches filters l = true) pushes)
    by (apply (bool_decide_unpack _); vm_compute; exact I).
  assert (Hp : length prev = 70%nat) by (vm_compute; reflexivity).
  assert (H50 : length (Logs.handleLogUpdate filters log prev) = 50%nat)
    by (vm_compute; reflexivity).
  exact (conj Hl (conj Hm (conj Hall (conj Hp (conj H50
    (log_push_within_limit filters log prev pushes Hl Hm Hall)))))).
Defined.

(** *** Filters *)

Lemma filter_sublist {A} (p : A -> bool) (l : list A) :
  List.filter p l `sublist_of` l.
Proof.
  induction l as [|x l IH]; simpl; [done|].
  destruct (p x); by constructor.
Qed.








(** ** Further properties of the pages *)

Lemma id_split (connection : GrpcConnection.t) (prev : list GrpcConnection.t) :
  GrpcConnection.id connection ∈ GrpcConnection.id <$> prev ->
  exists l1 c0 l2,
    prev = (l1 ++ c0 :: l2)%list /\
    GrpcConnection.id c0 = GrpcConnection.id connection /\
    Forall (fun x => GrpcConnection.id x ≠ GrpcConnection.id connection) l1.
Proof.
  induction prev as [|x prev IH]; intros Hin; [by apply elem_of_nil in Hin|].
  destruct (decide (GrpcConnection.id x = GrpcConnection.id connection)) as [Heq|Hne].
  - exists [], x, prev. by repeat split.
  - rewrite fmap_cons in Hin. apply elem_of_cons in Hin as [Hin|Hin]; [congruence|].
    destruct (IH Hin) as (l1 & c0 & l2 & -> & Hid & Hall).
    exists (x :: l1), c0, l2. repeat split; [done|]. by constructor.
Qed.

Lemma upsert_at_first_match (connection c0 : GrpcConnection.t)
    (l1 l2 : list GrpcConnection.t) :
  GrpcConnection.id c0 = GrpcConnection.id connection ->
  Forall (fun x => GrpcConnection.id x ≠ GrpcConnection.id connection) l1 ->
  Connections.handleConnectionUpdate connection (l1 ++ c0 :: l2)
  = (l1 ++ connection :: l2)%list.
Proof.
  intros Hid Hall. unfold Connections.handleConnectionUpdate.
  rewrite (findIndex_first _ _ (length l1) c0).
  - destruct (Z.leb_spec 0 (Z.of_nat (length l1))); [|lia].
    rewrite Nat2Z.id. rewrite insert_app_r_alt by done.
    by rewrite Nat.sub_diag.
  - by rewrite lookup_app_r, Nat.sub_diag.
  - by apply String.eqb_eq.
  - intros j y Hj Hy. apply String.eqb_neq.
    rewrite lookup_app_l in Hy by done.
    rewrite Forall_forall in Hall. apply Hall. by eapply list_elem_of_lookup_2.
Qed.

(** Whatever the list holds, also records that share an id: an upsert
    replaces the first record with the id of the new one, where it
    stands, and leaves every other record and the length as they are. *)
Theorem upsert_replaces_first_match (connection c0 : GrpcConnection.t)
    (l1 l2 : list GrpcConnection.t) :
  GrpcConnection.id c0 = GrpcConnection.id connection ->
  Forall (fun x => GrpcConnection.id x ≠ GrpcConnection.id connection) l1 ->
  Connections.handleConnectionUpdate connection (l1 ++ c0 :: l2)
  = (l1 ++ connection :: l2)%list /\
  length (Connections.handleConnectionUpdate connection (l1 ++ c0 :: l2))
  = length (l1 ++ c0 :: l2).
Proof.
  intros Hid Hall. rewrite upsert_at_first_match by done.
  split; [done|]. by rewrite !length_app.
Qed.

(** An upsert done twice is an upsert done once: a repeated push of the
    same record neither duplicates it nor moves it. *)
Theorem upsert_idempotent (connection : GrpcConnection.t)
    (prev : list GrpcConnection.t) :
  Connections.handleConnectionUpdate connection
    (Connections.handleConnectionUpdate connection prev)
  = Connections.handleConnectionUpdate connection prev.
Proof.
  destruct (decide (GrpcConnection.id connection ∈ GrpcConnection.id <$> prev))
    as [Hin|Hout].
  - destruct (id_split connection prev Hin) as (l1 & c0 & l2 & -> & Hid & Hall).
    rewrite (upsert_at_first_match connection c0) by done.
    by rewrite (upsert_at_first_match connection connection).
  - assert (Hall : Forall (fun x => GrpcConnection.id x ≠ GrpcConnection.id connection) prev).
    { apply Forall_forall. intros y Hy Heq. apply Hout. rewrite <- Heq.
      by apply list_elem_of_fmap_2. }
    assert (Happ : Connections.handleConnectionUpdate connection prev
                   = (prev ++ [connection])%list).
    { unfold Connections.handleConnectionUpdate. rewrite findIndex_none; [done|].
      eapply Forall_impl; [exact Hall|]. intros y Hy. by apply String.eqb_neq. }
    rewrite Happ. by rewrite (upsert_at_first_match connection connection).
Qed.

Lemma upsert_replaces_first_match_witness :
  let old := sample_connection "b" GrpcConnection.connected in
  let new := sample_connection "b" GrpcConnection.error in
  let l1 := [sample_connection "a" GrpcConnection.connected] in
  let l2 := [sample_connection "b" GrpcConnection.disconnected;
             sample_connection "c" GrpcConnection.connected] in
  GrpcConnection.id old = GrpcConnection.id new /\
  Forall (fun x => GrpcConnection.id x ≠ GrpcConnection.id new) l1 /\
  Connections.handleConnectionUpdate new (l1 ++ old :: l2)
  = (l1 ++ new :: l2)%list /\
  length (Connections.handleConnectionUpdate new (l1 ++ old :: l2))
  = length (l1 ++ old :: l2).
Proof.
  intros old new l1 l2.
  assert (Hid : GrpcConnection.id old = GrpcConnection.id new) by reflexivity.
  assert (Hall : Forall (fun x => GrpcConnection.id x ≠ GrpcConnection.id new) l1)
    by (apply (bool_decide_unpack _); vm_compute; exact I).
  exact (conj Hid (conj Hall (upsert_replaces_first_match new old l1 l2 Hid Hall))).
Defined.

Lemma filter_partition_3 {A} (p q r : A -> bool) (l : list A) :
  (forall x, (if p x then 1 else 0) + (if q x then 1 else 0) + (if r x then 1 else 0) = 1)%nat ->
  (length (List.filter p l) + length (List.filter q l) + length (List.filter r l)
   = length l)%nat.
Proof.
  intros H. induction l as [|x l IH]; simpl; [done|].
  specialize (H x). destruct (p x), (q x), (r x); simpl in *; lia.
Qed.

(** The summary under the connections table adds up: connected,
    disconnected and error connections are counted once each, and
    together they are all the connections shown. *)
Theorem connections_summary_adds_up (searchText : string)
    (connections : list GrpcConnection.t) :
  let sm := Connections.tableSummary
              (Connections.filteredConnections searchText connections) in
  (Connections.connectedCount sm + Connections.disconnectedCount sm
   + Connections.errorCount sm = Connections.totalConnections sm)%nat /\
  (Connections.totalConnections sm <= length connections)%nat.
Proof.
  simpl. split.
  - apply filter_partition_3. intros x. by destruct (GrpcConnection.status x).
  - apply sublist_length. unfold Connections.filteredConnections.
    destruct (truthy searchText); [apply filter_sublist|done].
Qed.

Lemma foldl_add_lengths (services : list GrpcServiceInfo.t) (n : nat) :
  foldl (fun sum service => (sum + length (GrpcServiceInfo.methods service))%nat)
        n services
  = (n + length (concat (GrpcServiceInfo.methods <$> services)))%nat.
Proof.
  revert n. induction services as [|x l IH]; intros n; [simpl; lia|].
  rewrite fmap_cons. simpl. rewrite IH, length_app. lia.
Qed.

(** The statistics of the Services page add up, and the Dashboard, which
    gets the inactive services by subtraction, shows the same numbers:
    active and inactive services are all the services, and the method
    count is the number of methods of all of them. *)
Theorem service_stats_add_up (services : list GrpcServiceInfo.t) :
  let st := Services.serviceStats services in
  let dash := Dashboard.serviceStats services in
  (Services.active st + Services.inactive st = Services.total st)%nat /\
  Services.methodsCount st = length (concat (GrpcServiceInfo.methods <$> services)) /\
  Dashboard.total dash = Z.of_nat (Services.total st) /\
  Dashboard.active dash = Z.of_nat (Services.active st) /\
  Dashboard.inactive dash = Z.of_nat (Services.inactive st).
Proof.
  simpl.
  assert (Hsum : (length (List.filter (fun s => bool_decide
                     (GrpcServiceInfo.status s = GrpcServiceInfo.active)) services)
                  + length (List.filter (fun s => bool_decide
                     (GrpcServiceInfo.status s = GrpcServiceInfo.inactive)) services)
                  = length services)%nat).
  { induction services as [|x l IH]; simpl; [done|].
    destruct (GrpcServiceInfo.status x); simpl; lia. }
  split; [done|]. split.
  - by rewrite foldl_add_lengths.
  - repeat split. lia.
Qed.

Lemma count_one_run (logs : list LogEntry.t) (c : Logs.Counts) :
  let r := foldl Logs.count_one c logs in
  let n l := length (List.filter
               (fun log => bool_decide (LogEntry.level log = l)) logs) in
  Logs.count_error r = (Logs.count_error c + n LogLevel.error)%nat /\
  Logs.count_warn r = (Logs.count_warn c + n LogLevel.warn)%nat /\
  Logs.count_info r = (Logs.count_info c + n LogLevel.info)%nat /\
  Logs.count_debug r = (Logs.count_debug c + n LogLevel.debug)%nat /\
  Logs.count_verbose r = (Logs.count_verbose c + n LogLevel.verbose)%nat /\
  Logs.count_total r = Logs.count_total c.
Proof.
  revert c. induction logs as [|x logs IH]; intros c; simpl.
  - repeat split; lia.
  - destruct (IH (Logs.count_one c x)) as (H1 & H2 & H3 & H4 & H5 & H6).
    simpl in *. rewrite H1, H2, H3, H4, H5, H6.
    unfold Logs.count_one. destruct (LogEntry.level x); simpl; repeat split; lia.
Qed.

(** The counters above the log table: each level counts the shown
    entries of that level, and the five of them add up to the total,
    which is the number of entries shown. *)
Theorem log_counts_add_up (filters : LogFilter.t) (logs : list LogEntry.t) :
  let c := Logs.logCounts filters logs in
  let shown := Logs.filteredLogs filters logs in
  let n l := length (List.filter
               (fun log => bool_decide (LogEntry.level log = l)) shown) in
  Logs.count_error c = n LogLevel.error /\
  Logs.count_warn c = n LogLevel.warn /\
  Logs.count_info c = n LogLevel.info /\
  Logs.count_debug c = n LogLevel.debug /\
  Logs.count_verbose c = n LogLevel.verbose /\
  Logs.count_total c = length shown /\
  (Logs.count_error c + Logs.count_warn c + Logs.count_info c
   + Logs.count_debug c + Logs.count_verbose c = Logs.count_total c)%nat.
Proof.
  intros c shown n. subst c. unfold Logs.logCounts. fold shown.
  destruct (count_one_run shown
    {| Logs.count_error := 0; Logs.count_warn := 0; Logs.count_info := 0;
       Logs.count_debug := 0; Logs.count_verbose := 0;
       Logs.count_total := length shown |}) as (H1 & H2 & H3 & H4 & H5 & H6).
  simpl in *. rewrite H1, H2, H3, H4, H5, H6. subst n. simpl.
  repeat split; try done.
  clear. induction shown as [|x l IH]; simpl; [done|].
  destruct (LogEntry.level x); simpl; lia.
Qed.


Lemma toLowerCase_truthy (s1 s2 : string) :
  toLowerCase s1 = toLowerCase s2 -> truthy s1 = truthy s2.
Proof. by destruct s1, s2. Qed.

Lemma toLowerCase_ascii_idempotent (c : ascii) :
  toLowerCase_ascii (toLowerCase_ascii c) = toLowerCase_ascii c.
Proof. by destruct c as [[] [] [] [] [] [] [] []]. Qed.

Lemma toLowerCase_idempotent (s : string) :
  toLowerCase (toLowerCase s) = toLowerCase s.
Proof.
  induction s as [|c s IH]; simpl; [done|].
  by rewrite toLowerCase_ascii_idempotent, IH.
Qed.

(** The three searches do not look at the case of the search text: two
    texts that differ in case only give the same connections, the same
    services and the same log entries; in particular a text gives what
    its lower-case form gives. *)
Theorem search_ignores_case (s1 s2 : string)
    (connections : list GrpcConnection.t) (services : list GrpcServiceInfo.t)
    (levels : list LogLevel.t) (service : option string) (limit : Z)
    (logs : list LogEntry.t) :
  toLowerCase s1 = toLowerCase s2 ->
  Connections.filteredConnections s1 connections
  = Connections.filteredConnections s2 connections /\
  Services.filteredServices s1 services = Services.filteredServices s2 services /\
  Logs.filteredLogs
    {| LogFilter.levels := levels; LogFilter.service := service;
       LogFilter.searchText := s1; LogFilter.limit := limit |} logs
  = Logs.filteredLogs
    {| LogFilter.levels := levels; LogFilter.service := service;
       LogFilter.searchText := s2; LogFilter.limit := limit |} logs /\
  Connections.filteredConnections (toLowerCase s1) connections
  = Connections.filteredConnections s1 connections.
Proof.
  intros H. pose proof (toLowerCase_truthy s1 s2 H) as Ht.
  unfold Connections.filteredConnections, Services.filteredServices,
    Logs.filteredLogs. simpl.
  rewrite (toLowerCase_truthy (toLowerCase s1) s1), toLowerCase_idempotent
    by apply toLowerCase_idempotent.
  by rewrite Ht, H.
Qed.

Lemma search_ignores_case_witness :
  let connections := [sample_connection "a" GrpcConnection.connected;
                      sample_connection "b" GrpcConnection.error] in
  toLowerCase "ERROR" = toLowerCase "Error" /\
  Connections.filteredConnections "ERROR" connections
  = [sample_connection "b" GrpcConnection.error] /\
  Connections.filteredConnections "ERROR" connections
  = Connections.filteredConnections "Error" connections /\
  Services.filteredServices "ERROR" [] = Services.filteredServices "Error" [] /\
  Logs.filteredLogs
    {| LogFilter.levels := []; LogFilter.service := None;
       LogFilter.searchText := "ERROR"; LogFilter.limit := 50 |}
    [numbered_log 0]
  = Logs.filteredLogs
    {| LogFilter.levels := []; LogFilter.service := None;
       LogFilter.searchText := "Error"; LogFilter.limit := 50 |}
    [numbered_log 0] /\
  Connections.filteredConnections (toLowerCase "ERROR") connections
  = Connections.filteredConnections "ERROR" connections.
Proof.
  intros connections.
  assert (H : toLowerCase "ERROR" = toLowerCase "Error") by reflexivity.
  exact (conj H (conj eq_refl
    (search_ignores_case "ERROR" "Error" connections [] [] None 50
       [numbered_log 0] H))).
Defined.

(** The log level of the saved settings is a floor of severity: applied
    to the filters it selects exactly the levels that are at least as
    severe, each once, and nothing else of the filters changes; a name
    that is the name of no level, the empty one among them, leaves the
    filters as they are. *)
Theorem saved_log_level_is_severity_floor (l l' : LogLevel.t) (name : string)
    (prev : LogFilter.t) :
  let f := Logs.applySavedLogLevel (Logs.level_name l) prev in
  (l' ∈ LogFilter.levels f <-> (Logs.rank l' <= Logs.rank l)%nat) /\
  NoDup (LogFilter.levels f) /\
  LogFilter.service f = LogFilter.service prev /\
  LogFilter.searchText f = LogFilter.searchText prev /\
  LogFilter.limit f = LogFilter.limit prev /\
  Logs.applySavedLogLevel "" prev = prev /\
  ((forall k, Logs.level_name k ≠ name) ->
   Logs.applySavedLogLevel name prev = prev).
Proof.
  assert (Hl : LogFilter.levels (Logs.applySavedLogLevel (Logs.level_name l) prev)
               = take (S (Logs.rank l)) Logs.LOG_LEVELS) by (by destruct l).
  simpl. rewrite Hl. split; [|split; [|split; [by destruct l|]]].
  - assert (Hb : bool_decide (l' ∈ take (S (Logs.rank l)) Logs.LOG_LEVELS)
                 = bool_decide (Logs.rank l' <= Logs.rank l)%nat)
      by (by destruct l, l').
    split; intros Hm; apply (bool_decide_unpack _).
    + rewrite <- Hb. by apply bool_decide_pack.
    + rewrite Hb. by apply bool_decide_pack.
  - apply (bool_decide_unpack _). by destruct l.
  - split; [by destruct l|]. split; [by destruct l|]. split; [done|].
    intros Hno. unfold Logs.applySavedLogLevel.
    destruct (truthy name); [|done].
    assert (Hk : forall k, String.eqb (Logs.level_name k) name = false)
      by (intros k; apply String.eqb_neq, Hno).
    unfold Logs.LOG_LEVELS. cbn [findIndex]. by rewrite !Hk.
Qed.

Lemma saved_log_level_is_severity_floor_witness :
  let f := Logs.applySavedLogLevel (Logs.level_name LogLevel.warn) errors_only in
  (forall k, Logs.level_name k ≠ "fatal") /\
  LogFilter.levels f = [LogLevel.error; LogLevel.warn] /\
  (LogLevel.info ∈ LogFilter.levels f <-> (Logs.rank LogLevel.info <= Logs.rank LogLevel.warn)%nat) /\
  NoDup (LogFilter.levels f) /\
  LogFilter.service f = LogFilter.service errors_only /\
  LogFilter.searchText f = LogFilter.searchText errors_only /\
  LogFilter.limit f = LogFilter.limit errors_only /\
  Logs.applySavedLogLevel "" errors_only = errors_only /\
  Logs.applySavedLogLevel "fatal" errors_only = errors_only.
Proof.
  intros f.
  assert (Hno : forall k, Logs.level_name k ≠ "fatal") by (by intros []).
  assert (Hf : LogFilter.levels f = [LogLevel.error; LogLevel.warn])
    by (vm_compute; reflexivity).
  pose proof (saved_log_level_is_severity_floor LogLevel.warn LogLevel.info "fatal"
                errors_only) as (H1 & H2 & H3 & H4 & H5 & H6 & H7).
  exact (conj Hno (conj Hf (conj H1 (conj H2 (conj H3 (conj H4 (conj H5
           (conj H6 (H7 Hno))))))))).
Defined.

(** A filter set saved under a name comes back when that name is
    loaded, whatever the filters were changed to in between and whatever
    was saved under the name before; the other saved sets are untouched,
    deleting the name undoes the saving for a name that was new, and an
    empty or cancelled name saves nothing. *)
Theorem saved_filters_round_trip (name : string) (other : LogFilter.t)
    (st : Logs.Saved) :
  truthy name = true ->
  let saved := Logs.saveCurrentFilters (Some name) st in
  let changed := {| Logs.savedFilters := Logs.savedFilters saved;
                    Logs.current := other |} in
  Logs.current (Logs.loadSavedFilter name changed) = Logs.current st /\
  Logs.savedFilters (Logs.loadSavedFilter name changed) = Logs.savedFilters saved /\
  delete name (Logs.savedFilters saved) = delete name (Logs.savedFilters st) /\
  Logs.savedFilters (Logs.deleteSavedFilter name saved)
  = delete name (Logs.savedFilters st) /\
  Logs.saveCurrentFilters None st = st /\
  Logs.saveCurrentFilters (Some "") st = st.
Proof.
  intros Hn. simpl. unfold Logs.saveCurrentFilters, Logs.loadSavedFilter,
    Logs.deleteSavedFilter. rewrite Hn. simpl.
  rewrite lookup_insert_eq. simpl. rewrite delete_insert_eq. by repeat split.
Qed.

Lemma saved_filters_round_trip_witness :
  let st := {| Logs.savedFilters := {["all" := Logs.defaultFilters]};
               Logs.current := errors_only |} in
  let saved := Logs.saveCurrentFilters (Some "errors") st in
  let changed := {| Logs.savedFilters := Logs.savedFilters saved;
                    Logs.current := Logs.defaultFilters |} in
  truthy "errors" = true /\
  Logs.savedFilters saved !! "all" = Some Logs.defaultFilters /\
  Logs.current (Logs.loadSavedFilter "errors" changed) = Logs.current st /\
  Logs.savedFilters (Logs.loadSavedFilter "errors" changed) = Logs.savedFilters saved /\
  delete "errors" (Logs.savedFilters saved) = delete "errors" (Logs.savedFilters st) /\
  Logs.savedFilters (Logs.deleteSavedFilter "errors" saved)
  = delete "errors" (Logs.savedFilters st) /\
  Logs.saveCurrentFilters None st = st /\
  Logs.saveCurrentFilters (Some "") st = st.
Proof.
  intros st saved changed.
  assert (Hn : truthy "errors" = true) by reflexivity.
  assert (Ha : Logs.savedFilters saved !! "all" = Some Logs.defaultFilters)
    by (vm_compute; reflexivity).
  exact (conj Hn (conj Ha
    (saved_filters_round_trip "errors" Logs.defaultFilters st Hn))).
Defined.


(** ** The HTTP client *)

(** [getLogs] sends a parameter for a non-empty list of levels, for a
    non-empty service and for a limit other than 0 only, each at most
    once and in this order: an empty level list and a limit of 0 are
    not sent at all, as if they had not been given. *)
Theorem getLogs_sends_only_what_is_set (o : ApiService.GetLogsOptions)
    (filters : LogFilter.t) :
  (ApiService.getLogs_params (Some o)).*1 `sublist_of` ["levels"; "service"; "limit"] /\
  ApiService.getLogs_params None = [] /\
  ApiService.getLogs_params
    (Some {| ApiService.levels := Some []; ApiService.service := ApiService.service o;
             ApiService.limit := Some 0%Z |})
  = ApiService.getLogs_params
    (Some {| ApiService.levels := None; ApiService.service := ApiService.service o;
             ApiService.limit := None |}) /\
  (ApiService.getLogs_params (Some (ApiService.fetchLogs_options filters))).*1
  = ((if decide (LogFilter.levels filters = []) then [] else ["levels"])
     ++ (if and_then (LogFilter.service filters) (fun _ => true) then ["service"] else [])
     ++ (if decide (LogFilter.limit filters = 0%Z) then [] else ["limit"]))%list.
Proof.
  split; [|split; [done|split; [done|]]].
  - unfold ApiService.getLogs_params.
    destruct (ApiService.levels o) as [ls|]; [destruct (0 <? length ls)%nat|];
      (destruct (ApiService.service o) as [sv|]; [destruct (truthy sv)|]);
      (destruct (ApiService.limit o) as [n|]; [destruct (n =? 0)%Z|]);
      simpl; repeat first [apply sublist_nil_l | apply sublist_skip
                          | apply sublist_cons | done].
    all: try (apply sublist_cons; repeat first [apply sublist_nil_l | apply sublist_skip
                          | apply sublist_cons | done]).
  - unfold ApiService.getLogs_params, ApiService.fetchLogs_options. simpl.
    destruct (LogFilter.levels filters) as [|l ls] eqn:Hl; simpl;
      (destruct (LogFilter.service filters) as [sv|]; simpl; [destruct (truthy sv)|]);
      (destruct (Z.eqb_spec (LogFilter.limit filters) 0) as [->|Hn]; simpl;
       [|rewrite decide_False by done]); simpl; done.
Qed.

Lemma Map_delete_set {V} (k : string) (v : V) (m : list (string * V)) :
  k ∉ m.*1 -> ApiClient.Map_delete k (ApiClient.Map_set k v m) = m.
Proof.
  induction m as [|[k' v'] m IH]; intros Hk; simpl.
  - by rewrite String.eqb_refl.
  - rewrite fmap_cons in Hk. apply not_elem_of_cons in Hk as [Hne Hk]. simpl in Hne.
    destruct (String.eqb_spec k' k) as [->|_]; [done|]. simpl.
    destruct (String.eqb_spec k' k) as [->|_]; [done|]. by rewrite IH.
Qed.

Lemma Map_set_fresh {V} (k : string) (v : V) (m : list (string * V)) :
  k ∉ m.*1 -> ApiClient.Map_set k v m = (m ++ [(k, v)])%list.
Proof.
  induction m as [|[k' v'] m IH]; intros Hk; simpl; [done|].
  rewrite fmap_cons in Hk. apply not_elem_of_cons in Hk as [Hne Hk]. simpl in Hne.
  destruct (String.eqb_spec k' k) as [->|_]; [done|]. by rewrite IH.
Qed.

Lemma Map_set_set {V} (k : string) (v1 v2 : V) (m : list (string * V)) :
  ApiClient.Map_set k v2 (ApiClient.Map_set k v1 m) = ApiClient.Map_set k v2 m.
Proof.
  induction m as [|[k' v'] m IH]; simpl.
  - by rewrite String.eqb_refl.
  - destruct (String.eqb_spec k' k) as [->|Hne]; simpl.
    + by rewrite String.eqb_refl.
    + destruct (String.eqb_spec k' k); [done|]. by rewrite IH.
Qed.

Lemma Map_set_values {V} (P : V -> Prop) (k : string) (v : V) (m : list (string * V)) :
  P v -> Forall (fun kv => P kv.2) m ->
  Forall (fun kv => P kv.2) (ApiClient.Map_set k v m).
Proof.
  intros Hv. induction 1 as [|[k' v'] m Hx Hm IH]; simpl.
  - by repeat constructor.
  - destruct (String.eqb k' k); by constructor.
Qed.

Lemma Map_delete_values {V} (P : V -> Prop) (k : string) (m : list (string * V)) :
  Forall (fun kv => P kv.2) m ->
  Forall (fun kv => P kv.2) (ApiClient.Map_delete k m).
Proof.
  induction 1 as [|[k' v'] m Hx Hm IH]; simpl; [done|].
  destruct (String.eqb k' k); [done|]. by constructor.
Qed.

Lemma forget_well_formed (id : option string) (c : ApiClient.ApiClient) :
  ApiClient.well_formed c -> ApiClient.well_formed (ApiClient.forget id c).
Proof.
  intros [Ha Hr]. unfold ApiClient.forget.
  destruct id as [id|]; [|done]. destruct (truthy id); [|done].
  split; [done|]. simpl.
  by apply (Map_delete_values (fun k => k < ApiClient.controllers c)%nat).
Qed.

Lemma handle_well_formed (e : ApiClient.Event) (c : ApiClient.ApiClient) :
  ApiClient.well_formed c -> ApiClient.well_formed (ApiClient.handle e c).
Proof.
  intros Hw. destruct e; simpl.
  - destruct Hw as [Ha Hr]. split; simpl.
    + eapply Forall_impl; [exact Ha|]. simpl. lia.
    + apply (Map_set_values (fun k => k < S (ApiClient.controllers c))%nat); [lia|].
      eapply Forall_impl; [exact Hr|]. simpl. lia.
  - by apply forget_well_formed.
  - unfold ApiClient.on_error, ApiClient.response_rejected.
    pose proof (forget_well_formed requestId c Hw) as Hf.
    destruct error as [status [|dm]| |msg]; simpl;
      repeat (match goal with |- context [if ?b then _ else _] => destruct b end);
      try done; by destruct Hf.
  - destruct Hw as [Ha Hr]. split; simpl; [|done].
    apply Forall_app. split; [done|]. by apply Forall_fmap.
Qed.

Lemma run_well_formed (es : list ApiClient.Event) (c : ApiClient.ApiClient) :
  ApiClient.well_formed c -> ApiClient.well_formed (ApiClient.run es c).
Proof.
  revert c. induction es as [|e es IH]; intros c Hw; simpl; [done|].
  apply IH. by apply handle_well_formed.
Qed.

Lemma apiClient_well_formed : ApiClient.well_formed ApiClient.apiClient.
Proof. by split. Qed.

(** [abortAllRequests] aborts every call in the registry, in the order
    in which they were issued, and empties the registry; done again
    it aborts nothing. A call issued afterwards is alone in the
    registry and is not among the aborted ones. *)
Theorem abort_all_spares_later_calls (es : list ApiClient.Event)
    (method url : string) (now : Z) :
  let c := ApiClient.run es ApiClient.apiClient in
  let c1 := ApiClient.abortAllRequests c in
  let r := ApiClient.on_request method url now c1 in
  ApiClient.abortControllers c1 = [] /\
  ApiClient.aborted c1 = (ApiClient.aborted c ++ (ApiClient.abortControllers c).*2)%list /\
  ApiClient.abortAllRequests c1 = c1 /\
  ApiClient.abortControllers r.1 = [r.2] /\
  r.2.2 ∉ ApiClient.aborted r.1.
Proof.
  intros c c1 r.
  pose proof (run_well_formed es _ apiClient_well_formed) as Hw. fold c in Hw.
  pose proof (handle_well_formed ApiClient.abort_all c Hw) as [Ha1 _].
  simpl in Ha1. subst r c1. simpl.
  split; [done|]. split; [done|]. split.
  { unfold ApiClient.abortAllRequests. simpl. by rewrite app_nil_r. }
  split; [done|].
  intros Hin. rewrite Forall_forall in Ha1. specialize (Ha1 _ Hin). lia.
Qed.


Lemma append_nonempty (a b : string) : b ≠ "" -> a ++ b ≠ "".
Proof. intros Hb. destruct a; [done|]. simpl. discriminate. Qed.

Lemma append_cancel (a x y : string) : a ++ x = a ++ y -> x = y.
Proof.
  induction a as [|c a IH]; simpl; [done|]. intros H. injection H as H. by apply IH.
Qed.

Lemma requestId_truthy (method url : string) (now : Z) :
  truthy (ApiClient.requestId method url now) = true.
Proof.
  unfold truthy, ApiClient.requestId.
  destruct (String.eqb_spec (method ++ "-" ++ url ++ "-" ++ Number_toString now) "")
    as [H|H]; [|done].
  by apply append_nonempty in H.
Qed.

Lemma on_error_registry (id : option string) (error : ApiClient.AxiosError)
    (c : ApiClient.ApiClient) :
  ApiClient.abortControllers (ApiClient.on_error id error c)
  = ApiClient.abortControllers (ApiClient.on_response id c) /\
  ApiClient.aborted (ApiClient.on_error id error c) = ApiClient.aborted c /\
  ApiClient.controllers (ApiClient.on_error id error c) = ApiClient.controllers c.
Proof.
  unfold ApiClient.on_error, ApiClient.response_rejected, ApiClient.on_response,
    ApiClient.forget.
  destruct id as [id|]; [destruct (truthy id)|];
    destruct error as [status [|dm]| |msg]; simpl;
    repeat (match goal with |- context [if ?b then _ else _] => destruct b end);
    done.
Qed.

(** A call whose id is not pending is put at the end of the registry
    when it is issued and taken out again when its response or its error
    arrives: the registry is then what it was before the call. *)
Theorem pending_call_round_trip (es : list ApiClient.Event)
    (method url : string) (now : Z) (error : ApiClient.AxiosError) :
  ApiClient.requestId method url now
    ∉ (ApiClient.abortControllers (ApiClient.run es ApiClient.apiClient)).*1 ->
  let c := ApiClient.run es ApiClient.apiClient in
  let id := ApiClient.requestId method url now in
  let r := ApiClient.on_request method url now c in
  r.2 = (id, ApiClient.controllers c) /\
  ApiClient.abortControllers r.1 = (ApiClient.abortControllers c ++ [r.2])%list /\
  ApiClient.abortControllers (ApiClient.on_response (Some id) r.1)
  = ApiClient.abortControllers c /\
  ApiClient.abortControllers (ApiClient.on_error (Some id) error r.1)
  = ApiClient.abortControllers c.
Proof.
  intros Hid c id r. subst r. simpl. fold id.
  assert (Hresp : ApiClient.abortControllers
                    (ApiClient.on_response (Some id)
                       (ApiClient.on_request method url now c).1)
                  = ApiClient.abortControllers c).
  { unfold ApiClient.on_response, ApiClient.forget. subst id.
    rewrite requestId_truthy. simpl. by apply Map_delete_set. }
  split; [done|]. split; [by apply Map_set_fresh|]. split; [done|].
  by rewrite (proj1 (on_error_registry _ _ _)).
Qed.

(** Two calls to the same method and url issued in the same millisecond
    get the same id. The second takes the place of the first in the
    registry: [abortAllRequests] then aborts the second call but never
    the first, and the response of either one removes the entry, so that
    the other call is no longer tracked. *)
Theorem same_millisecond_calls_collide (es : list ApiClient.Event)
    (method url : string) (now : Z) :
  ApiClient.requestId method url now
    ∉ (ApiClient.abortControllers (ApiClient.run es ApiClient.apiClient)).*1 ->
  let c := ApiClient.run es ApiClient.apiClient in
  let id := ApiClient.requestId method url now in
  let r1 := ApiClient.on_request method url now c in
  let r2 := ApiClient.on_request method url now r1.1 in
  r1.2.1 = r2.2.1 /\
  r1.2.2 ≠ r2.2.2 /\
  ApiClient.abortControllers r2.1 = (ApiClient.abortControllers c ++ [r2.2])%list /\
  (r1.2.2 ∉ ApiClient.aborted (ApiClient.abortAllRequests r2.1)) /\
  r2.2.2 ∈ ApiClient.aborted (ApiClient.abortAllRequests r2.1) /\
  ApiClient.abortControllers (ApiClient.on_response (Some id) r2.1)
  = ApiClient.abortControllers c.
Proof.
  intros Hid c id r1 r2.
  pose proof (run_well_formed es _ apiClient_well_formed) as [Ha Hr]. fold c in Ha, Hr.
  subst r1 r2. simpl. fold id.
  rewrite Map_set_set, Map_set_fresh by done.
  split; [done|]. split; [lia|]. split; [done|]. split; [|split].
  - rewrite fmap_app. simpl. intros Hin.
    apply elem_of_app in Hin as [Hin|Hin].
    + rewrite Forall_forall in Ha. specialize (Ha _ Hin). lia.
    + apply elem_of_app in Hin as [Hin|Hin].
      * apply list_elem_of_fmap in Hin as (kv & Heq & Hin).
        rewrite Forall_forall in Hr. specialize (Hr _ Hin). simpl in Hr. lia.
      * apply list_elem_of_singleton in Hin. lia.
  - rewrite fmap_app. simpl. apply elem_of_app. right. apply elem_of_app. right.
    by apply list_elem_of_singleton.
  - unfold ApiClient.on_response, ApiClient.forget. subst id.
    rewrite requestId_truthy. simpl.
    rewrite <- (Map_set_fresh _ (S (ApiClient.controllers c))) by done.
    by apply Map_delete_set.
Qed.

(** Calls to the same method and url issued at different milliseconds
    have different ids, and no id is empty, so that the interceptors
    always find the id of a call. *)
Theorem request_ids_differ_by_time (method url : string) (now1 now2 : Z) :
  now1 ≠ now2 ->
  ApiClient.requestId method url now1 ≠ ApiClient.requestId method url now2 /\
  truthy (ApiClient.requestId method url now1) = true.
Proof.
  intros Hne. split; [|apply requestId_truthy].
  unfold ApiClient.requestId, Number_toString. intros H.
  do 4 apply append_cancel in H.
  by apply (inj pretty) in H.
Qed.

(** The response interceptor, on an error, takes the call out of the
    registry as it does on a response, aborts nothing and shows one
    notification at most beside the ones already shown. It shows none
    for exactly two kinds of error: a response whose status is none of
    401, 403, 404 and is below 500 (a 400 or a 422, say), and a response
    with a status of 500 or more whose data is [null] or [undefined]:
    there the interceptor throws, and the call is rejected with a
    [TypeError] in place of the error. *)
Theorem error_shows_one_notification_at_most (id : option string)
    (error : ApiClient.AxiosError) (c : ApiClient.ApiClient)
    (data : ApiClient.ResponseData) :
  let c' := ApiClient.on_error id error c in
  ApiClient.abortControllers c' = ApiClient.abortControllers (ApiClient.on_response id c) /\
  ApiClient.aborted c' = ApiClient.aborted c /\
  ApiClient.shown c `prefix_of` ApiClient.shown c' /\
  length (ApiClient.shown c')
  = (length (ApiClient.shown c) + if ApiClient.silent error then 0 else 1)%nat /\
  (ApiClient.response_rejected id error c).2
  = (if ApiClient.throws error then ApiClient.a_TypeError else ApiClient.the_error) /\
  ApiClient.silent (ApiClient.with_response 400 data) = true /\
  ApiClient.silent (ApiClient.with_response 422 data) = true /\
  ApiClient.silent (ApiClient.with_response 500 data)
  = ApiClient.throws (ApiClient.with_response 500 data) /\
  ApiClient.throws (ApiClient.with_response 500 ApiClient.data_nullish) = true.
Proof.
  intros c'. subst c'.
  destruct (on_error_registry id error c) as (Hr & Ha & _).
  split; [done|]. split; [done|].
  assert (Hs : ApiClient.shown (ApiClient.forget id c) = ApiClient.shown c).
  { unfold ApiClient.forget. destruct id as [i|]; [|done]. by destruct (truthy i). }
  assert (H45 : forall d, ApiClient.silent (ApiClient.with_response 400 d) = true
                          /\ ApiClient.silent (ApiClient.with_response 422 d) = true)
    by (by intros []).
  destruct (H45 data) as [H400 H422].
  assert (H500 : ApiClient.silent (ApiClient.with_response 500 data)
                 = ApiClient.throws (ApiClient.with_response 500 data))
    by (by destruct data).
  unfold ApiClient.on_error, ApiClient.response_rejected, ApiClient.silent,
    ApiClient.throws.
  destruct error as [status d| |msg]; simpl.
  - destruct (Z.eqb_spec status 401), (Z.eqb_spec status 403),
      (Z.eqb_spec status 404), (Z.leb_spec 500 status), (Z.ltb_spec status 500);
      try lia;
      destruct d; simpl; rewrite Hs, ?length_app; simpl;
      (split; [try done; by eexists|split; [lia|done]]).
  - rewrite Hs, length_app. simpl. split; [by eexists|split; [lia|done]].
  - rewrite Hs, length_app. simpl. split; [by eexists|split; [lia|done]].
Qed.


Lemma pending_call_round_trip_witness :
  let es := [ApiClient.request "get" "/services" 1700000000000;
             ApiClient.request "get" "/logs" 1700000000001;
             ApiClient.response (Some (ApiClient.requestId "get" "/services" 1700000000000))] in
  let c := ApiClient.run es ApiClient.apiClient in
  let id := ApiClient.requestId "get" "/stats" 1700000000002 in
  let r := ApiClient.on_request "get" "/stats" 1700000000002 c in
  (id ∉ (ApiClient.abortControllers c).*1) /\
  id = "get-/stats-1700000000002" /\
  ApiClient.abortControllers c = [("get-/logs-1700000000001", 1%nat)] /\
  r.2 = (id, ApiClient.controllers c) /\
  ApiClient.abortControllers r.1 = (ApiClient.abortControllers c ++ [r.2])%list /\
  ApiClient.abortControllers (ApiClient.on_response (Some id) r.1)
  = ApiClient.abortControllers c /\
  ApiClient.abortControllers (ApiClient.on_error (Some id) ApiClient.without_response r.1)
  = ApiClient.abortControllers c.
Proof.
  intros es c id r.
  assert (Hid : id ∉ (ApiClient.abortControllers c).*1)
    by (apply (bool_decide_unpack _); vm_compute; exact I).
  assert (H1 : id = "get-/stats-1700000000002") by (vm_compute; reflexivity).
  assert (H2 : ApiClient.abortControllers c = [("get-/logs-1700000000001", 1%nat)])
    by (vm_compute; reflexivity).
  exact (conj Hid (conj H1 (conj H2
    (pending_call_round_trip es "get" "/stats" 1700000000002
       ApiClient.without_response Hid)))).
Defined.

Lemma same_millisecond_calls_collide_witness :
  let es := [ApiClient.request "get" "/services" 1700000000000] in
  let c := ApiClient.run es ApiClient.apiClient in
  let id := ApiClient.requestId "get" "/logs" 1700000000000 in
  let r1 := ApiClient.on_request "get" "/logs" 1700000000000 c in
  let r2 := ApiClient.on_request "get" "/logs" 1700000000000 r1.1 in
  (id ∉ (ApiClient.abortControllers c).*1) /\
  ApiClient.aborted (ApiClient.abortAllRequests r2.1) = [0; 2]%nat /\
  r1.2.1 = r2.2.1 /\
  r1.2.2 ≠ r2.2.2 /\
  ApiClient.abortControllers r2.1 = (ApiClient.abortControllers c ++ [r2.2])%list /\
  (r1.2.2 ∉ ApiClient.aborted (ApiClient.abortAllRequests r2.1)) /\
  r2.2.2 ∈ ApiClient.aborted (ApiClient.abortAllRequests r2.1) /\
  ApiClient.abortControllers (ApiClient.on_response (Some id) r2.1)
  = ApiClient.abortControllers c.
Proof.
  intros es c id r1 r2.
  assert (Hid : id ∉ (ApiClient.abortControllers c).*1)
    by (apply (bool_decide_unpack _); vm_compute; exact I).
  assert (H1 : ApiClient.aborted (ApiClient.abortAllRequests r2.1) = [0; 2]%nat)
    by (vm_compute; reflexivity).
  exact (conj Hid (conj H1
    (same_millisecond_calls_collide es "get" "/logs" 1700000000000 Hid))).
Defined.

Lemma request_ids_differ_by_time_witness :
  (1700000000000 ≠ 1700000000001)%Z /\
  ApiClient.requestId "get" "/logs" 1700000000000
  ≠ ApiClient.requestId "get" "/logs" 1700000000001 /\
  truthy (ApiClient.requestId "get" "/logs" 1700000000000) = true.
Proof.
  assert (H : (1700000000000 ≠ 1700000000001)%Z) by lia.
  exact (conj H (request_ids_differ_by_time "get" "/logs" _ _ H)).
Defined.

(** ** Uptime and menu *)

Lemma append_empty_l (a b : string) : a ++ b = "" -> a = "".
Proof. by destruct a. Qed.

Lemma counted_nonempty (n : Z) (unit : string) : Stats.counted n unit ≠ "".
Proof. unfold Stats.counted. by apply append_nonempty. Qed.

Lemma join_nonempty (sep x : string) (l : list string) :
  x ≠ "" -> join sep (x :: l) ≠ "".
Proof.
  intros Hx. destruct l as [|y l]; [done|].
  change (join sep (x :: y :: l)) with (x ++ sep ++ join sep (y :: l)).
  intros H. by apply append_empty_l in H.
Qed.

(** For a whole number of seconds from 0 up to [2^53], where the
    numbers of JavaScript are exact, [formatUptime] splits it into
    days, hours below 24, minutes below 60 and seconds below 60 that add
    up to it again. The text names, in this order, the days when there
    is a full day, the hours and the minutes when they are not 0, and
    the seconds when they are not 0 or when the whole is below a
    minute: between one and four parts, never the empty text. *)
Theorem uptime_is_split_exactly (seconds : Z) :
  (0 <= seconds < 9007199254740992)%Z ->
  let d := (seconds / 86400)%Z in
  let h := (seconds mod 86400 / 3600)%Z in
  let m := (seconds mod 3600 / 60)%Z in
  let s := (seconds mod 60)%Z in
  Stats.days seconds = d /\ Stats.hours seconds = h /\
  Stats.minutes seconds = m /\ Stats.remainingSeconds seconds = s /\
  (seconds = d * 86400 + h * 3600 + m * 60 + s)%Z /\
  (0 <= d)%Z /\ (0 <= h < 24)%Z /\ (0 <= m < 60)%Z /\ (0 <= s < 60)%Z /\
  Stats.uptime_parts seconds
  = ((if (86400 <=? seconds)%Z then [Stats.counted d "day"] else [])
     ++ (if (0 <? h)%Z then [Stats.counted h "hour"] else [])
     ++ (if (0 <? m)%Z then [Stats.counted m "minute"] else [])
     ++ (if (0 <? s)%Z || (seconds <? 60)%Z
         then [Stats.counted s "second"] else []))%list /\
  (1 <= length (Stats.uptime_parts seconds) <= 4)%nat /\
  Stats.formatUptime seconds ≠ "".
Proof.
  intros Hs d h m s.
  assert (Hd : Stats.days seconds = d) by done.
  assert (Hh : Stats.hours seconds = h)
    by (unfold Stats.hours; by rewrite Z.rem_mod_nonneg by lia).
  assert (Hm : Stats.minutes seconds = m)
    by (unfold Stats.minutes; by rewrite Z.rem_mod_nonneg by lia).
  assert (Hr : Stats.remainingSeconds seconds = s)
    by (unfold Stats.remainingSeconds; by rewrite Z.rem_mod_nonneg by lia).
  do 4 (split; [done|]).
  assert (Hsum : (seconds = d * 86400 + h * 3600 + m * 60 + s)%Z)
    by (subst d h m s; Z.to_euclidean_division_equations; lia).
  assert (Hd0 : (0 <= d)%Z) by (subst d; Z.to_euclidean_division_equations; lia).
  assert (Hh0 : (0 <= h < 24)%Z) by (subst h; Z.to_euclidean_division_equations; lia).
  assert (Hm0 : (0 <= m < 60)%Z) by (subst m; Z.to_euclidean_division_equations; lia).
  assert (Hs0 : (0 <= s < 60)%Z) by (subst s; Z.to_euclidean_division_equations; lia).
  do 5 (split; [done|]).
  assert (Hparts : Stats.uptime_parts seconds
    = ((if (86400 <=? seconds)%Z then [Stats.counted d "day"] else [])
       ++ (if (0 <? h)%Z then [Stats.counted h "hour"] else [])
       ++ (if (0 <? m)%Z then [Stats.counted m "minute"] else [])
       ++ (if (0 <? s)%Z || (seconds <? 60)%Z
           then [Stats.counted s "second"] else []))%list).
  { unfold Stats.uptime_parts. rewrite Hd, Hh, Hm, Hr.
    destruct (Z.ltb_spec 0 d), (Z.leb_spec 86400 seconds), (Z.ltb_spec 0 h),
      (Z.ltb_spec 0 m), (Z.ltb_spec 0 s), (Z.ltb_spec seconds 60);
      try done; exfalso; clear -Hs Hsum Hd0 Hh0 Hm0 Hs0 H H0 H1 H2 H3 H4; lia. }
  split; [done|]. rewrite Hparts at 1. unfold Stats.formatUptime. rewrite Hparts.
  clear Hparts.
  destruct (Z.leb_spec 86400 seconds), (Z.ltb_spec 0 h), (Z.ltb_spec 0 m),
    (Z.ltb_spec 0 s), (Z.ltb_spec seconds 60); simpl orb; cbn [app length];
    first [ split; [lia|apply join_nonempty, counted_nonempty]
          | exfalso; lia ].
Qed.

Lemma uptime_is_split_exactly_witness :
  (0 <= 90061 < 9007199254740992)%Z /\
  Stats.formatUptime 90061 = "1 day, 1 hour, 1 minute, 1 second" /\
  Stats.formatUptime 7200 = "2 hours" /\
  Stats.formatUptime 0 = "0 seconds" /\
  Stats.uptime_parts 90061
  = ((if (86400 <=? 90061)%Z then [Stats.counted (90061 / 86400) "day"] else [])
     ++ (if (0 <? 90061 mod 86400 / 3600)%Z
         then [Stats.counted (90061 mod 86400 / 3600) "hour"] else [])
     ++ (if (0 <? 90061 mod 3600 / 60)%Z
         then [Stats.counted (90061 mod 3600 / 60) "minute"] else [])
     ++ (if (0 <? 90061 mod 60)%Z || (90061 <? 60)%Z
         then [Stats.counted (90061 mod 60) "second"] else []))%list /\
  Stats.formatUptime 90061 ≠ "".
Proof.
  assert (H0 : (0 <= 90061 < 9007199254740992)%Z) by lia.
  assert (H1 : Stats.formatUptime 90061 = "1 day, 1 hour, 1 minute, 1 second")
    by (vm_compute; reflexivity).
  assert (H2 : Stats.formatUptime 7200 = "2 hours") by (vm_compute; reflexivity).
  assert (H3 : Stats.formatUptime 0 = "0 seconds") by (vm_compute; reflexivity).
  pose proof (uptime_is_split_exactly 90061 H0) as H.
  exact (conj H0 (conj H1 (conj H2 (conj H3 (conj
    (proj1 (proj2 (proj2 (proj2 (proj2 (proj2 (proj2 (proj2 (proj2 (proj2 H))))))))))
    (proj2 (proj2 (proj2 (proj2 (proj2 (proj2 (proj2 (proj2 (proj2 (proj2 (proj2 H)))))))))))))))).
Defined.

(** The menu and the address agree: for every entry of [routes], the
    key selected at its path is its key, and a click on that key
    navigates to its path. The address selects by its first segment
    alone: at any path below the path of an entry other than the first,
    the key of that entry is selected (below [/] lie the paths of all
    the entries, so the first entry has no such rule; its key is
    selected when the first segment is empty). Whatever the address is,
    the selected key is a key of the menu. *)
Theorem selected_key_round_trip (key path rest pathname : string) :
  (key, path) ∈ App.routes ->
  App.getSelectedKey path = key /\
  App.handleMenuClick key = Some path /\
  (path ≠ "/" -> App.getSelectedKey (path ++ "/" ++ rest) = key) /\
  App.getSelectedKey "" = "1" /\
  App.getSelectedKey ("//" ++ rest) = "1" /\
  App.getSelectedKey pathname ∈ App.routes.*1.
Proof.
  intros Hin. split; [|split; [|split; [|split; [done|split; [done|]]]]].
  - apply list_elem_of_In in Hin. simpl in Hin.
    repeat (destruct Hin as [Hin|Hin]; [by injection Hin as <- <-|]). done.
  - apply list_elem_of_In in Hin. simpl in Hin.
    repeat (destruct Hin as [Hin|Hin]; [by injection Hin as <- <-|]). done.
  - intros Hroot. apply list_elem_of_In in Hin. simpl in Hin.
    repeat (destruct Hin as [Hin|Hin]; [by injection Hin as <- <-|]). done.
  - unfold App.getSelectedKey.
    match goal with |- context [List.find ?f App.routes] =>
      destruct (List.find f App.routes) as [[k p]|] eqn:Hf end.
    + apply find_some in Hf as [Hr _]. simpl.
      apply list_elem_of_In in Hr.
      destruct (truthy k); [|apply list_elem_of_here].
      by apply (list_elem_of_fmap_2 fst) in Hr.
    + apply list_elem_of_here.
Qed.

Lemma selected_key_round_trip_witness :
  (("3", "/connections") ∈ App.routes) /\
  "/connections" ≠ "/" /\
  App.getSelectedKey "/connections" = "3" /\
  App.handleMenuClick "3" = Some "/connections" /\
  App.getSelectedKey ("/connections" ++ "/" ++ "42") = "3" /\
  App.getSelectedKey "/nowhere" ∈ App.routes.*1.
Proof.
  assert (H : ("3", "/connections") ∈ App.routes)
    by (apply (bool_decide_unpack _); vm_compute; exact I).
  assert (Hne : "/connections" ≠ "/") by discriminate.
  pose proof (selected_key_round_trip "3" "/connections" "42" "/nowhere" H)
    as (H1 & H2 & H3 & _ & _ & H6).
  exact (conj H (conj Hne (conj H1 (conj H2 (conj (H3 Hne) H6))))).
Defined.
